(** * URL shortener service (index.js): model and verified properties

    The service is an Express application with two API routes,
    [POST /api/shorturl] ("create") and [GET /api/shorturl/:short_url]
    ("resolve"), backed by two MongoDB collections ([Url] and [Counter]).

    The handlers are embedded as functions in a small monad that threads
    the database, records every outbound call (DNS lookup, database
    operation) in a trace, and lets a database operation throw.  The
    platform functions the handlers call are modelled next to them:

    - [Number] : the ECMAScript string-to-number conversion, with the
      rounding to a binary64 value;
    - [new URL] : the scheme part of the WHATWG parser is written out;
      what follows the scheme (authority, host, port, path) is a parameter
      of the development, so every theorem holds whatever that part does;
    - [res.redirect] : Express sets the [Location] header to
      [encodeUrl(url)]; the encoding is written out, the character class
      of its pattern (which differs between versions of encodeurl) and the
      target of the alias ["back"] are parameters;
    - [dns.lookup] and database failures : answers given by a [World],
      one per request.

    Strings are sequences of code units below 256.  The fields of a
    request body are strings (a form-encoded body, or a JSON object of
    strings).  The [seq] of a counter and the [short_url] of a document
    are integers; where a number goes through its decimal text and
    [Number], the statements keep it in the range of safe integers. *)

From Stdlib Require Import ZArith QArith Qreduction Qcanon Bool List Lia.
From Stdlib Require Import Ascii String DecimalString DecimalZ DecimalPos Sorted.
From stdpp Require Import base option list gmap strings.

Import ListNotations.
Local Open Scope string_scope.
Local Open Scope list_scope.
Local Open Scope Z_scope.

(** ** JavaScript values used by the handlers *)

Module JS.

(** A JavaScript number: not-a-number, an infinity, or a finite binary64
    value given by its exact rational value in lowest terms.  The sign of
    zero is not kept. *)
Inductive number :=
| NaN
| Infinity (negative : bool)
| Finite (q : Q).

(** [Number.isFinite] *)
Definition isFinite (x : number) : bool :=
  match x with
  | Finite _ => true
  | _ => false
  end.

(** Truthiness of a value that is [undefined] ([None]) or a string. *)
Definition truthy (v : option string) : bool :=
  match v with
  | None => false
  | Some s => negb (String.eqb s "")
  end.

(** [a || b] *)
Definition or (a b : option string) : option string :=
  if truthy a then a else b.

(** *** Characters *)

Definition code (c : ascii) : Z := Z.of_N (N_of_ascii c).

Definition in_range (lo hi : Z) (c : ascii) : bool :=
  (lo <=? code c) && (code c <=? hi).

Definition is_digit (c : ascii) : bool := in_range 48 57 c.
Definition is_upper (c : ascii) : bool := in_range 65 90 c.
Definition is_lower (c : ascii) : bool := in_range 97 122 c.
Definition is_alpha (c : ascii) : bool := is_upper c || is_lower c.
Definition is_alnum (c : ascii) : bool := is_alpha c || is_digit c.

Definition to_lower (c : ascii) : ascii :=
  if is_upper c then ascii_of_N (N_of_ascii c + 32) else c.

(** StrWhiteSpaceChar, for code units below 256: TAB, LF, VT, FF, CR,
    SP and NBSP. *)
Definition is_white (c : ascii) : bool :=
  in_range 9 13 c || (code c =? 32) || (code c =? 160).

(** The value of a digit in a radix up to 16, when it is one. *)
Definition digit_of (radix : Z) (c : ascii) : option Z :=
  let v :=
    if is_digit c then code c - 48
    else if in_range 97 102 c then code c - 87
    else if in_range 65 70 c then code c - 55
    else 16 in
  if v <? radix then Some v else None.

(** *** String to number *)

Fixpoint drop_while (p : ascii -> bool) (s : string) : string :=
  match s with
  | String c r => if p c then drop_while p r else s
  | EmptyString => EmptyString
  end.

Fixpoint drop_end_while (p : ascii -> bool) (s : string) : string :=
  match s with
  | String c r =>
      match drop_end_while p r with
      | EmptyString => if p c then EmptyString else String c EmptyString
      | r' => String c r'
      end
  | EmptyString => EmptyString
  end.

Definition trim (s : string) : string :=
  drop_end_while is_white (drop_while is_white s).

(** Reads the longest prefix of digits of the radix: its value (from the
    accumulator), how many digits were read, and the rest. *)
Fixpoint read_digits (radix : Z) (s : string) (acc : Z) (n : Z)
  : Z * Z * string :=
  match s with
  | String c r =>
      match digit_of radix c with
      | Some v => read_digits radix r (acc * radix + v) (n + 1)
      | None => (acc, n, s)
      end
  | EmptyString => (acc, n, s)
  end.

Definition read_sign (s : string) : bool * string :=
  match s with
  | String "+" r => (false, r)
  | String "-" r => (true, r)
  | _ => (false, s)
  end.

(** ExponentPart, optional, up to the end of the string. *)
Definition read_exponent (s : string) : option Z :=
  match s with
  | EmptyString => Some 0
  | String c r =>
      if Ascii.eqb c "e" || Ascii.eqb c "E" then
        let '(neg, r1) := read_sign r in
        let '(v, n, r2) := read_digits 10 r1 0 0 in
        if (0 <? n) && String.eqb r2 "" then Some (if neg then - v else v)
        else None
      else None
  end.

(** StrUnsignedDecimalLiteral other than [Infinity]: the digits as an
    integer [m] and a power of ten [k], for the value [m * 10^k]. *)
Definition read_decimal (s : string) : option (Z * Z) :=
  let '(ip, n1, r1) := read_digits 10 s 0 0 in
  let '(m, n2, r2) :=
    match r1 with
    | String "." r => read_digits 10 r ip 0
    | _ => (ip, 0, r1)
    end in
  if n1 + n2 =? 0 then None
  else
    match read_exponent r2 with
    | Some e => Some (m, e - n2)
    | None => None
    end.

(** NonDecimalIntegerLiteral: [0x], [0o] or [0b] and digits to the end.
    The outer [Some] tells that the prefix is there. *)
Definition read_prefixed (s : string) : option (option Z) :=
  match s with
  | String "0" (String c r) =>
      let radix :=
        if Ascii.eqb c "x" || Ascii.eqb c "X" then 16
        else if Ascii.eqb c "o" || Ascii.eqb c "O" then 8
        else if Ascii.eqb c "b" || Ascii.eqb c "B" then 2
        else 0 in
      if radix =? 0 then None
      else
        let '(v, n, r') := read_digits radix r 0 0 in
        Some (if (0 <? n) && String.eqb r' "" then Some v else None)
  | _ => None
  end.

(** *** Rounding to binary64 *)

(** [floor (log2 (p / d))] *)
Definition floor_log2 (p d : Z) : Z :=
  let k := Z.log2 p - Z.log2 d in
  if d * 2 ^ Z.max k 0 <=? p * 2 ^ Z.max (- k) 0 then k else k - 1.

(** The binary64 value nearest to [p / d] (for [0 < p], [0 < d]), ties
    to the even significand: a significand [m] of at most 53 bits at the
    exponent [e], not below the subnormal exponent -1074. *)
Definition round_pos (p d : Z) : Z * Z :=
  let e := Z.max (floor_log2 p d - 52) (- 1074) in
  let num := p * 2 ^ Z.max (- e) 0 in
  let den := d * 2 ^ Z.max e 0 in
  let m := num / den in
  let r := num mod den in
  let m' :=
    match 2 * r ?= den with
    | Lt => m
    | Gt => m + 1
    | Eq => if Z.even m then m else m + 1
    end in
  (m', e).

(** The number value of the rational [(if neg then -p else p) / d]:
    values that round beyond the largest binary64 become infinite. *)
Definition of_ratio (neg : bool) (p d : Z) : number :=
  if p =? 0 then Finite 0
  else
    let '(m, e) := round_pos p d in
    if 2 ^ 1024 <=? m * 2 ^ Z.max e 0 then Infinity neg
    else
      let v := Qmake (m * 2 ^ Z.max e 0) (Z.to_pos (2 ^ Z.max (- e) 0)) in
      Finite (Qred (if neg then Qopp v else v)).

(** The number value of [m * 10^k], [0 <= m]. *)
Definition of_decimal (neg : bool) (m k : Z) : number :=
  of_ratio neg (m * 10 ^ Z.max k 0) (10 ^ Z.max (- k) 0).

(** [Number(s)] for a string [s] (StringToNumber). *)
Definition Number (s : string) : number :=
  let t := trim s in
  if String.eqb t "" then Finite 0
  else
    match read_prefixed t with
    | Some (Some v) => of_ratio false v 1
    | Some None => NaN
    | None =>
        let '(neg, u) := read_sign t in
        if String.eqb u "Infinity" then Infinity neg
        else
          match read_decimal u with
          | Some (m, k) => of_decimal neg m k
          | None => NaN
          end
    end.

(** The decimal text of an integer, as [String(n)] and JSON give it (for
    integers below 10^21). *)
Definition decimal (n : Z) : string :=
  NilZero.string_of_int (Z.to_int n).



(** *** [encodeURI] *)

Definition is_hex (c : ascii) : bool :=
  is_digit c || in_range 65 70 c || in_range 97 102 c.

(** The upper-case hexadecimal digit of a value below 16. *)
Definition hex_char (v : Z) : ascii :=
  ascii_of_N (Z.to_N (if v <? 10 then 48 + v else 55 + v)).

(** The escape [%XX] of an octet. *)
Definition percent (octet : Z) : string :=
  String "%" (String (hex_char (octet / 16)) (String (hex_char (octet mod 16)) EmptyString)).

(** The characters that [encodeURI] leaves as they are: letters, digits,
    [- _ . ! ~ * ' ( )], the reserved [; / ? : @ & = + $ ,] and [#]. *)
Definition uri_unescaped (c : ascii) : bool :=
  is_alnum c
  || existsb (Ascii.eqb c) (list_ascii_of_string "-_.!~*'();/?:@&=+$,#").

(** [encodeURI] of a one-character string, for a code unit below 256:
    the escapes of the octets of its UTF-8 encoding, one octet below 128
    and two from there on. *)
Definition encodeURI_char (c : ascii) : string :=
  if uri_unescaped c then String c EmptyString
  else if code c <? 128 then percent (code c)
  else (percent (192 + code c / 64) ++ percent (128 + code c mod 64))%string.

End JS.

(** ** The URL class *)

(** What [new URL] does once the scheme of the input is known: from the
    scheme and the text after its colon, the hostname of the parsed URL, or
    [None] when the parser fails (an empty or invalid host of a special
    scheme, an invalid port, ...). *)
Class Platform := {
  url_after_scheme : string -> string -> option string;
  (** The character class of the pattern of encodeurl
      ([ENCODE_CHARS_REGEXP]): the characters that [encodeUrl] never
      rewrites, [%] apart.  It differs between versions of encodeurl. *)
  encodeurl_keeps : ascii -> bool;
  (** What [res.location] puts in place of the alias ["back"]: in
      Express 4 the [Referrer] header of the request being served, or
      ["/"]; [None] for a version without the alias. *)
  back_location : option string
}.

Module URL.

(** The two fields of a URL object that the service reads. *)
Record t := { protocol : string; hostname : string }.

Definition is_c0_or_space (c : ascii) : bool := JS.code c <=? 32.

Definition is_tab_or_newline (c : ascii) : bool :=
  (JS.code c =? 9) || (JS.code c =? 10) || (JS.code c =? 13).

Fixpoint remove (p : ascii -> bool) (s : string) : string :=
  match s with
  | String c r => if p c then remove p r else String c (remove p r)
  | EmptyString => EmptyString
  end.

Definition is_scheme_char (c : ascii) : bool :=
  JS.is_alnum c || Ascii.eqb c "+" || Ascii.eqb c "-" || Ascii.eqb c ".".

(** Scheme state: the buffer grows with lowercased scheme characters up
    to the colon.  Anything else leads to the no-scheme state, which fails
    since the constructor is called without a base. *)
Fixpoint scheme_state (buffer s : string) : option (string * string) :=
  match s with
  | String c r =>
      if is_scheme_char c then
        scheme_state (buffer ++ String (JS.to_lower c) EmptyString)%string r
      else if Ascii.eqb c ":" then Some (buffer, r)
      else None
  | EmptyString => None
  end.

(** Scheme start state *)
Definition scheme_start_state (s : string) : option (string * string) :=
  match s with
  | String c r =>
      if JS.is_alpha c then scheme_state (String (JS.to_lower c) EmptyString) r
      else None
  | EmptyString => None
  end.

(** [new URL(input)]: [None] when the constructor throws. *)
Definition parse `{Platform} (input : string) : option t :=
  let s :=
    remove is_tab_or_newline
      (JS.drop_end_while is_c0_or_space (JS.drop_while is_c0_or_space input)) in
  match scheme_start_state s with
  | Some (scheme, rest) =>
      match url_after_scheme scheme rest with
      | Some h => Some {| protocol := (scheme ++ ":")%string; hostname := h |}
      | None => None
      end
  | None => None
  end.

Definition is_slash (c : ascii) : bool := Ascii.eqb c "/" || Ascii.eqb c "\".

Definition ends_authority (c : ascii) : bool :=
  is_slash c || Ascii.eqb c "?" || Ascii.eqb c "#".

Fixpoint take_until (p : ascii -> bool) (s : string) : string :=
  match s with
  | String c r => if p c then EmptyString else String c (take_until p r)
  | EmptyString => EmptyString
  end.

(** The text after the last [@], or all of it. *)
Fixpoint after_last_at (s : string) : string :=
  match s with
  | String c r =>
      if existsb (Ascii.eqb "@") (list_ascii_of_string r) then after_last_at r
      else if Ascii.eqb c "@" then r
      else s
  | EmptyString => EmptyString
  end.

Definition is_special (scheme : string) : bool :=
  existsb (String.eqb scheme) ["http"; "https"; "ftp"; "ws"; "wss"].

(** A stand-in for the part of the parser after the scheme, to run the
    model on examples: for http, https, ftp, ws and wss the host is what
    stands between the slashes and the next [/], [\], [?] or [#], without
    credentials and port, in lower case, and must not be empty; other
    schemes get an empty host. *)
Definition simple_after_scheme (scheme rest : string) : option string :=
  if is_special scheme then
    let authority := take_until ends_authority (JS.drop_while is_slash rest) in
    let host := take_until (Ascii.eqb ":") (after_last_at authority) in
    if String.eqb host "" then None
    else Some (string_of_list_ascii (map JS.to_lower (list_ascii_of_string host)))
  else Some "".

End URL.

(** ** Express: the [Location] header of a redirect *)

Module Express.

(** The character class of encodeurl 1.0.2:
    [\x21 \x25 \x26-\x3B \x3D \x3F-\x5B \x5D \x5F \x61-\x7A \x7E]. *)
Definition keeps_1_0_2 (c : ascii) : bool :=
  (JS.code c =? 33) || (JS.code c =? 37) || JS.in_range 38 59 c
  || (JS.code c =? 61) || JS.in_range 63 91 c || (JS.code c =? 93)
  || (JS.code c =? 95) || JS.in_range 97 122 c || (JS.code c =? 126).

(** [encodeUrl(url)]: every match of the pattern
    [(?:[^class]|%(?:[^0-9A-Fa-f]|[0-9A-Fa-f][^0-9A-Fa-f]|$))+] is replaced
    by its [encodeURI].  A character outside the class is matched alone; a
    [%] is matched with the character after it when that is no hexadecimal
    digit, with the two after it when they are a hexadecimal digit and a
    character that is none, and alone at the end of the text; any other
    [%] stays. *)
Fixpoint encodeUrl `{Platform} (url : string) : string :=
  match url with
  | String c r =>
      if negb (encodeurl_keeps c) then (JS.encodeURI_char c ++ encodeUrl r)%string
      else if Ascii.eqb c "%" then
        match r with
        | String a r1 =>
            if negb (JS.is_hex a) then
              (JS.encodeURI_char c ++ JS.encodeURI_char a ++ encodeUrl r1)%string
            else
              match r1 with
              | String b r2 =>
                  if JS.is_hex b then String c (encodeUrl r)
                  else
                    (JS.encodeURI_char c ++ JS.encodeURI_char a
                     ++ JS.encodeURI_char b ++ encodeUrl r2)%string
              | EmptyString => String c (encodeUrl r)
              end
        | EmptyString => JS.encodeURI_char c
        end
      else String c (encodeUrl r)
  | EmptyString => EmptyString
  end.

(** A text that [encodeUrl] has nothing to do on: every character is in
    the class, and every [%] is followed by two hexadecimal digits. *)
Fixpoint plain `{Platform} (url : string) : bool :=
  match url with
  | String c r =>
      encodeurl_keeps c
      && (if Ascii.eqb c "%" then
            match r with
            | String a (String b _) => JS.is_hex a && JS.is_hex b
            | _ => false
            end
          else true)
      && plain r
  | EmptyString => true
  end.

(** The value that [res.location(url)] gives to the [Location] header. *)
Definition location `{Platform} (url : string) : string :=
  encodeUrl
    (match back_location with
     | Some loc => if String.eqb url "back" then loc else url
     | None => url
     end).

End Express.

Definition simple_platform : Platform :=
  {| url_after_scheme := URL.simple_after_scheme;
     encodeurl_keeps := Express.keeps_1_0_2;
     back_location := Some "/" |}.

(** ** The database *)

(** A document of the [Url] collection. *)
Record UrlDoc := { original_url : string; short_url : Z }.

(** The two collections: [Url] in insertion order, and [Counter] as a map
    from the [_id] of a counter to its [seq]. *)
Record DB := { urls : list UrlDoc; counters : gmap string Z }.

Definition empty_db : DB := {| urls := []; counters := ∅ |}.

(** The outbound calls of the handlers. *)
Inductive call :=
| DnsLookup (hostname : string)
| UrlFindOneByOriginalUrl (u : string)
| UrlFindOneByShortUrl (q : Q)
| CounterFindOneAndUpdate (name : string)
| UrlSave (doc : UrlDoc).

(** What the outside answers during one request: [true] when the call
    fails (the lookup calls back with an error, the database operation
    rejects for a reason of the storage layer). *)
Definition World := call -> bool.

(** The world in which nothing fails. *)
Definition calm : World := fun _ => false.

Inductive outcome (A : Type) :=
| Returned (a : A)
| Thrown.
Arguments Returned {A} a.
Arguments Thrown {A}.

(** A computation of a handler: it runs in a world from a database, ends
    by returning or throwing, and leaves a database and the calls made. *)
Definition io (A : Type) : Type := World -> DB -> outcome A * DB * list call.

Definition ret {A} (a : A) : io A := fun _ db => (Returned a, db, []).

Definition bind {A B} (m : io A) (f : A -> io B) : io B :=
  fun w db =>
    match m w db with
    | (Returned a, db1, t1) =>
        let '(o, db2, t2) := f a w db1 in (o, db2, t1 ++ t2)
    | (Thrown, db1, t1) => (Thrown, db1, t1)
    end.

(** [try { m } catch (e) { h }] *)
Definition try_catch {A} (m : io A) (h : io A) : io A :=
  fun w db =>
    match m w db with
    | (Thrown, db1, t1) =>
        let '(o, db2, t2) := h w db1 in (o, db2, t1 ++ t2)
    | r => r
    end.

Notation "'let*' x ':=' m 'in' k" := (bind m (fun x => k))
  (at level 10, x name, m at level 100, k at level 200).

(** A call that changes nothing: it answers [f db], or throws when the
    world makes it fail. *)
Definition query {A} (c : call) (f : DB -> A) : io A :=
  fun w db => ((if w c then Thrown else Returned (f db)), db, [c]).

(** [dns.lookup(hostname, callback)]: the [err] given to the callback, as
    a boolean. *)
Definition dns_lookup (hostname : string) : io bool :=
  fun w db => (Returned (w (DnsLookup hostname)), db, [DnsLookup hostname]).

(** [Url.findOne({ original_url }).exec()] *)
Definition Url_findOne_original_url (u : string) : io (option UrlDoc) :=
  query (UrlFindOneByOriginalUrl u)
    (fun db => List.find (fun d => String.eqb (original_url d) u) (urls db)).

(** [Url.findOne({ short_url: short }).exec()], for a finite [short] *)
Definition Url_findOne_short_url (short : Q) : io (option UrlDoc) :=
  query (UrlFindOneByShortUrl short)
    (fun db => List.find (fun d => Qeq_bool (inject_Z (short_url d)) short) (urls db)).

(** The [seq] of a counter, 0 when the counter has no document. *)
Definition seq_of (name : string) (db : DB) : Z :=
  default 0 (counters db !! name).

(** [Counter.findOneAndUpdate({ _id: name }, { $inc: { seq: 1 } },
    { new: true, upsert: true }).exec()]: the updated [seq]. *)
Definition Counter_findOneAndUpdate_inc (name : string) : io Z :=
  fun w db =>
    let c := CounterFindOneAndUpdate name in
    if w c then (Thrown, db, [c])
    else
      let seq := seq_of name db + 1 in
      (Returned seq,
       {| urls := urls db; counters := <[name := seq]> (counters db) |},
       [c]).

Definition getNextSequence (name : string) : io Z :=
  let* ret_seq := Counter_findOneAndUpdate_inc name in
  ret ret_seq.

(** [doc.save()] of a new document: rejected when the world makes it
    fail, or when its [short_url], which carries a unique index, is
    already there. *)
Definition Url_save (doc : UrlDoc) : io unit :=
  fun w db =>
    let c := UrlSave doc in
    if w c || existsb (fun d => short_url d =? short_url doc) (urls db)
    then (Thrown, db, [c])
    else (Returned tt, {| urls := urls db ++ [doc]; counters := counters db |}, [c]).

(** ** Responses *)

Inductive json :=
| JStr (s : string)
| JNum (n : Z).

Inductive sent :=
| Json (fields : list (string * json))
| Redirect (location : string).

Record response := { status : Z; payload : sent }.

(** [res.json(obj)] *)
Definition res_json (obj : list (string * json)) : response :=
  {| status := 200; payload := Json obj |}.

(** [res.status(code).json(obj)] *)
Definition res_status_json (code : Z) (obj : list (string * json)) : response :=
  {| status := code; payload := Json obj |}.

(** [res.redirect(url)]: status 302, with the [Location] header that
    [res.location(url)] sets. *)
Definition res_redirect `{Platform} (url : string) : response :=
  {| status := 302; payload := Redirect (Express.location url) |}.

Definition invalid_url : response := res_json [("error", JStr "invalid url")].

Definition server_error : response :=
  res_status_json 500 [("error", JStr "server error")].

Definition not_found : response :=
  res_status_json 404 [("error", JStr "No short URL found for given input")].

Definition mapping_json (d : UrlDoc) : response :=
  res_json [("original_url", JStr (original_url d)); ("short_url", JNum (short_url d))].

(** ** The helpers and the two handlers *)

Section Handlers.
Context `{Platform}.

Definition isValidHttpUrl (input : string) : bool :=
  match URL.parse input with
  | Some parsed =>
      String.eqb (URL.protocol parsed) "http:"
      || String.eqb (URL.protocol parsed) "https:"
  | None => false
  end.

Definition getHostname (input : string) : option string :=
  match URL.parse input with
  | Some parsed => Some (URL.hostname parsed)
  | None => None
  end.

(** [req.body.url || req.body.original_url || req.body.input]; a field
    that the body does not have is [undefined]. *)
Definition body_original_url (body : gmap string string) : option string :=
  JS.or (JS.or (body !! "url") (body !! "original_url")) (body !! "input").

(** [POST /api/shorturl] *)
Definition create (body : gmap string string) : io response :=
  let original_url := body_original_url body in
  match original_url with
  | Some u =>
      if negb (JS.truthy original_url) || negb (isValidHttpUrl u) then
        ret invalid_url
      else
        let hostname := getHostname u in
        match hostname with
        | Some h =>
            if negb (JS.truthy hostname) then ret invalid_url
            else
              let* err := dns_lookup h in
              if err then ret invalid_url
              else
                try_catch
                  (let* existing := Url_findOne_original_url u in
                   match existing with
                   | Some e => ret (mapping_json e)
                   | None =>
                       let* nextSeq := getNextSequence "url_count" in
                       let newUrl := {| original_url := u; short_url := nextSeq |} in
                       let* _ := Url_save newUrl in
                       ret (mapping_json newUrl)
                   end)
                  (ret server_error)
        | None => ret invalid_url
        end
  | None => ret invalid_url
  end.

(** [GET /api/shorturl/:short_url] *)
Definition resolve (short_url_param : string) : io response :=
  let short := JS.Number short_url_param in
  match short with
  | JS.Finite q =>
      try_catch
        (let* entry := Url_findOne_short_url q in
         match entry with
         | None => ret not_found
         | Some e => ret (res_redirect (original_url e))
         end)
        (ret server_error)
  | _ => ret invalid_url
  end.

(** *** Serving requests one after the other *)

Inductive request :=
| Create (body : gmap string string)
| Resolve (short_url_param : string).

Definition handle (r : request) : io response :=
  match r with
  | Create body => create body
  | Resolve p => resolve p
  end.

(** The requests are served in order, each in its own world: how each
    handler ended, and the database left by the last. *)
Fixpoint serve (rs : list (request * World)) (db : DB)
  : list (outcome response) * DB :=
  match rs with
  | (r, w) :: rest =>
      let '(o, db1, _) := handle r w db in
      let '(os, db2) := serve rest db1 in
      (o :: os, db2)
  | [] => ([], db)
  end.

(** A body passes the checks that come before the DNS lookup with the
    URL [u] and the hostname [h]. *)
Definition accepts (body : gmap string string) (u h : string) : Prop :=
  body_original_url body = Some u
  /\ JS.truthy (Some u) = true
  /\ isValidHttpUrl u = true
  /\ getHostname u = Some h
  /\ JS.truthy (Some h) = true.

(** The spec's reading of the choice of the field: the first of [url],
    [original_url], [input] that the body has, whatever its value. *)
Definition first_present (body : gmap string string) : option string :=
  match body !! "url" with
  | Some v => Some v
  | None =>
      match body !! "original_url" with
      | Some v => Some v
      | None => body !! "input"
      end
  end.

End Handlers.

(** ** Invariant of the database *)

(** The counter that numbers the short URLs. *)
Definition url_count (db : DB) : Z := seq_of "url_count" db.

(** Every [short_url] was given by the counter: they are pairwise distinct
    and lie between 1 and the current value of the counter. *)
Definition ids_ok (db : DB) : Prop :=
  0 <= url_count db
  /\ NoDup (map short_url (urls db))
  /\ Forall (fun d => 1 <= short_url d <= url_count db) (urls db).

(** The [original_url]s of the collection are pairwise distinct. *)
Definition urls_distinct (db : DB) : Prop :=
  NoDup (map original_url (urls db)).

(** The database after the counter was incremented. *)
Definition bumped (db : DB) : DB :=
  {| urls := urls db;
     counters := <["url_count" := url_count db + 1]> (counters db) |}.

(** The database after the new mapping of [u] was saved. *)
Definition added (u : string) (db : DB) : DB :=
  {| urls := urls db ++ [{| original_url := u; short_url := url_count db + 1 |}];
     counters := <["url_count" := url_count db + 1]> (counters db) |}.

(** The mappings of the URLs [us], numbered from [first] on. *)
Fixpoint numbered (first : Z) (us : list string) : list UrlDoc :=
  match us with
  | u :: rest => {| original_url := u; short_url := first |} :: numbered (first + 1) rest
  | [] => []
  end.

(** What a request can do to the database: nothing, increment the counter
    (the save that should follow failed), or increment it and append the
    mapping of a URL that no document had, under a fresh [short_url]. *)
Inductive effect (db : DB) : DB -> Prop :=
| Unchanged : effect db db
| Bumped : effect db (bumped db)
| Added (u : string) :
    List.find (fun d => String.eqb (original_url d) u) (urls db) = None ->
    existsb (fun d => short_url d =? url_count db + 1) (urls db) = false ->
    effect db (added u db).

(** The storage layer answers every operation of the request. *)
Definition storage_up (w : World) : Prop :=
  forall c, match c with DnsLookup _ => True | _ => w c = false end.

(** The id [n] was given out and no document carries it. *)
Definition skipped (n : Z) (db : DB) : Prop :=
  n <= url_count db /\ Forall (fun d => short_url d <> n) (urls db).

(** The causes for which [create] answers that the URL is invalid: no
    input or an empty one, an input that [new URL] refuses, a scheme other
    than http and https, an empty hostname, and a hostname whose lookup
    fails. *)
Inductive rejected `{Platform} (body : gmap string string) (w : World) : Prop :=
| NoInput :
    JS.truthy (body_original_url body) = false -> rejected body w
| Unparsable u :
    body_original_url body = Some u -> URL.parse u = None -> rejected body w
| OtherScheme u parsed :
    body_original_url body = Some u -> URL.parse u = Some parsed ->
    URL.protocol parsed <> "http:" -> URL.protocol parsed <> "https:" ->
    rejected body w
| NoHostname u parsed :
    body_original_url body = Some u -> URL.parse u = Some parsed ->
    URL.hostname parsed = "" -> rejected body w
| Unresolvable u h :
    accepts body u h -> w (DnsLookup h) = true -> rejected body w.

(** A world in which the lookup of every hostname fails. *)
Definition offline : World :=
  fun c => match c with DnsLookup _ => true | _ => false end.

(** A world in which saving a document fails. *)
Definition save_fails : World :=
  fun c => match c with UrlSave _ => true | _ => false end.

(** Bodies of requests used as examples. *)
Definition body_url (u : string) : gmap string string := {[ "url" := u ]}.

Definition body_empty_url : gmap string string :=
  <[ "url" := "" ]> {[ "original_url" := "http://example.com" ]}.

Definition body_input : gmap string string :=
  {[ "input" := "http://example.com" ]}.

(** A database with one mapping. *)
Definition db_one : DB :=
  {| urls := [{| original_url := "http://example.com"; short_url := 1 |}];
     counters := {[ "url_count" := 1 ]} |}.

(** A create request whose body passes the checks with the URL [u], served
    in a world where nothing fails. *)
Definition submits `{Platform} (s : gmap string string * World) (u : string) : Prop :=
  (exists h, accepts s.1 u h) /\ forall c, s.2 c = false.

Definition creates (subs : list (gmap string string * World)) : list (request * World) :=
  map (fun s => (Create s.1, s.2)) subs.

(** ** More worlds, runs and invariants *)

(** [k] calls of [getNextSequence] on the same counter, one after the
    other: the values they return. *)
Fixpoint next_sequences (k : nat) (name : string) : io (list Z) :=
  match k with
  | S k' =>
      let* v := getNextSequence name in
      let* vs := next_sequences k' name in
      ret (v :: vs)
  | O => ret []
  end.

(** A world in which the lookups in the [Url] collection fail. *)
Definition lookup_fails : World :=
  fun c =>
    match c with
    | UrlFindOneByOriginalUrl _ | UrlFindOneByShortUrl _ => true
    | _ => false
    end.

(** A world in which the update of the counter fails. *)
Definition counter_fails : World :=
  fun c => match c with CounterFindOneAndUpdate _ => true | _ => false end.

(** The text [u] passes the checks that [create] makes on a URL. *)
Definition validated `{Platform} (u : string) : Prop :=
  JS.truthy (Some u) = true
  /\ isValidHttpUrl u = true
  /\ exists h, getHostname u = Some h /\ JS.truthy (Some h) = true.

(** Every stored [original_url] passes the checks of [create]. *)
Definition valid_urls `{Platform} (db : DB) : Prop :=
  Forall (fun d => validated (original_url d)) (urls db).

(** The documents are stored in the order of their ids. *)
Definition ids_increasing (db : DB) : Prop :=
  StronglySorted Z.lt (map short_url (urls db)).

(** A database with two counters. *)
Definition db_two_counters : DB :=
  {| urls := [{| original_url := "http://example.com"; short_url := 1 |}];
     counters := <[ "other" := 7 ]> {[ "url_count" := 1 ]} |}.

(** * Properties *)

(** ** [Number] on examples *)

Example Number_abc : JS.Number "abc" = JS.NaN.
Proof. vm_compute. reflexivity. Qed.

Example Number_3_5 : JS.Number "3.5" = JS.Finite (7 # 2).
Proof. vm_compute. reflexivity. Qed.

Example Number_1e3 : JS.Number "1e3" = JS.Finite (1000 # 1).
Proof. vm_compute. reflexivity. Qed.

Example Number_hex : JS.Number " 0x1F " = JS.Finite (31 # 1).
Proof. vm_compute. reflexivity. Qed.

Example Number_big : JS.Number "9007199254740993" = JS.Finite (9007199254740992 # 1).
Proof. vm_compute. reflexivity. Qed.

Example Number_tenth : JS.Number "-.1" = JS.Finite (- 3602879701896397 # 36028797018963968).
Proof. vm_compute. reflexivity. Qed.

Example Number_1e999 : JS.Number "1e999" = JS.Infinity false.
Proof. vm_compute. reflexivity. Qed.

Example Number_max : JS.Number "1.7976931348623157e308" = JS.Finite ((2^53 - 1) * 2 ^ 971 # 1).
Proof. vm_compute. reflexivity. Qed.

Example Number_over : JS.Number "1.7976931348623159e308" = JS.Infinity false.
Proof. vm_compute. reflexivity. Qed.

Example Number_empty : JS.Number "  " = JS.Finite 0.
Proof. vm_compute. reflexivity. Qed.

Example Number_min_subnormal : JS.Number "5e-324" = JS.Finite (1 # Z.to_pos (2 ^ 1074)).
Proof. vm_compute. reflexivity. Qed.

Example Number_underflow : JS.Number "2e-324" = JS.Finite 0.
Proof. vm_compute. reflexivity. Qed.

Example Number_dot : JS.Number "." = JS.NaN.
Proof. vm_compute. reflexivity. Qed.

Example Number_neg_inf : JS.Number "-Infinity" = JS.Infinity true.
Proof. vm_compute. reflexivity. Qed.

Example Number_12px : JS.Number "12px" = JS.NaN.
Proof. vm_compute. reflexivity. Qed.

Example decimal_42 : JS.decimal 42 = "42".
Proof. vm_compute. reflexivity. Qed.

(** ** [encodeUrl] on examples, with the character class of encodeurl 1.0.2 *)

Example encodeUrl_space :
  @Express.encodeUrl simple_platform "http://example.com/a b" = "http://example.com/a%20b".
Proof. vm_compute. reflexivity. Qed.

Example encodeUrl_escape_kept :
  @Express.encodeUrl simple_platform "http://example.com/a%20b?x=%7e" = "http://example.com/a%20b?x=%7e".
Proof. vm_compute. reflexivity. Qed.

Example encodeUrl_brackets_kept :
  @Express.encodeUrl simple_platform "http://[::1]:8080/foo" = "http://[::1]:8080/foo".
Proof. vm_compute. reflexivity. Qed.

Example encodeUrl_bad_escape : @Express.encodeUrl simple_platform "%foo" = "%25foo".
Proof. vm_compute. reflexivity. Qed.

Example encodeUrl_percent_end : @Express.encodeUrl simple_platform "100%" = "100%25".
Proof. vm_compute. reflexivity. Qed.

Example encodeUrl_percent_hex_end : @Express.encodeUrl simple_platform "%4" = "%4".
Proof. vm_compute. reflexivity. Qed.

Example encodeUrl_percent_bracket : @Express.encodeUrl simple_platform "%[" = "%25%5B".
Proof. vm_compute. reflexivity. Qed.

Example encodeUrl_percent_percent : @Express.encodeUrl simple_platform "%%41" = "%25%2541".
Proof. vm_compute. reflexivity. Qed.

Example encodeUrl_angle : @Express.encodeUrl simple_platform "/<a>#x$" = "/%3Ca%3E#x$".
Proof. vm_compute. reflexivity. Qed.

Example encodeUrl_latin1 :
  @Express.encodeUrl simple_platform (String (ascii_of_N 233) "") = "%C3%A9".
Proof. vm_compute. reflexivity. Qed.

Example location_back : @Express.location simple_platform "back" = "/".
Proof. vm_compute. reflexivity. Qed.

(** ** Facts about [Number] *)

Module NumberFacts.
Import JS.













End NumberFacts.

(** ** The monad and the database operations *)

Lemma seq_of_insert name v db us :
  seq_of name {| urls := us; counters := <[name := v]> (counters db) |} = v.
Proof. unfold seq_of; simpl. now rewrite lookup_insert_eq. Qed.

Lemma getNextSequence_eq name w db :
  getNextSequence name w db =
    if w (CounterFindOneAndUpdate name)
    then (Thrown, db, [CounterFindOneAndUpdate name])
    else (Returned (seq_of name db + 1),
          {| urls := urls db;
             counters := <[name := seq_of name db + 1]> (counters db) |},
          [CounterFindOneAndUpdate name]).
Proof.
  unfold getNextSequence, bind, Counter_findOneAndUpdate_inc, ret.
  destruct (w _); simpl; reflexivity.
Qed.

Section HandlerFacts.
Context `{Platform}.

(** The handler, once the checks before the lookup have passed, as a
    decision tree over the answers of the world. *)
Lemma create_accepted body u h w db :
  accepts body u h ->
  create body w db =
    let dns := DnsLookup h in
    let fnd := UrlFindOneByOriginalUrl u in
    let inc := CounterFindOneAndUpdate "url_count" in
    let doc := {| original_url := u; short_url := url_count db + 1 |} in
    if w dns then (Returned invalid_url, db, [dns])
    else if w fnd then (Returned server_error, db, [dns; fnd])
    else
      match List.find (fun d => String.eqb (original_url d) u) (urls db) with
      | Some e => (Returned (mapping_json e), db, [dns; fnd])
      | None =>
          if w inc then (Returned server_error, db, [dns; fnd; inc])
          else if w (UrlSave doc)
                  || existsb (fun d => short_url d =? url_count db + 1) (urls db)
          then (Returned server_error, bumped db, [dns; fnd; inc; UrlSave doc])
          else (Returned (mapping_json doc), added u db, [dns; fnd; inc; UrlSave doc])
      end.
Proof.
  intros (Hb & Hu & Hv & Hh & Hne).
  unfold create. rewrite Hb, Hu, Hv, Hh, Hne. simpl.
  unfold bind at 1, dns_lookup. simpl.
  destruct (w (DnsLookup h)) eqn:Hdns; [reflexivity|].
  unfold try_catch, bind at 1, Url_findOne_original_url, query. simpl.
  destruct (w (UrlFindOneByOriginalUrl u)) eqn:Hfind; [reflexivity|].
  destruct (List.find _ (urls db)) as [e|] eqn:Hex; [reflexivity|].
  unfold bind at 1. rewrite getNextSequence_eq.
  destruct (w (CounterFindOneAndUpdate "url_count")) eqn:Hinc; [reflexivity|].
  unfold bind, Url_save, ret. simpl.
  fold (url_count db).
  destruct (w (UrlSave _) || existsb _ (urls db)); reflexivity.
Qed.


Lemma accepts_dec body :
  (exists u h, accepts body u h) \/ (forall u h, ~ accepts body u h).
Proof.
  unfold accepts.
  destruct (body_original_url body) as [u|] eqn:Hb;
    [| right; intros u h (E & _); discriminate E].
  destruct (JS.truthy (Some u)) eqn:Hu;
    [| right; intros u' h (E & T & _); congruence].
  destruct (isValidHttpUrl u) eqn:Hv;
    [| right; intros u' h (E & _ & V & _); congruence].
  destruct (getHostname u) as [h|] eqn:Hh;
    [| right; intros u' h (E & _ & _ & G & _); congruence].
  destruct (JS.truthy (Some h)) eqn:Hne;
    [| right; intros u' h' (E & _ & _ & G & T); congruence].
  left. exists u, h. auto.
Qed.

Lemma accepts_fun body u h u' h' :
  accepts body u h -> accepts body u' h' -> u' = u /\ h' = h.
Proof.
  intros (E & _ & _ & G & _) (E' & _ & _ & G' & _).
  assert (u' = u) by congruence. subst. split; congruence.
Qed.

(** A body that does not pass the checks is answered at once. *)
Lemma create_not_accepted body w db :
  (forall u h, ~ accepts body u h) ->
  create body w db = (Returned invalid_url, db, []).
Proof.
  intros Hno. unfold create.
  destruct (body_original_url body) as [u|] eqn:Hb; [|reflexivity].
  destruct (JS.truthy (Some u)) eqn:Hu; [|reflexivity].
  destruct (isValidHttpUrl u) eqn:Hv; [|reflexivity].
  destruct (getHostname u) as [h|] eqn:Hh; [|reflexivity].
  destruct (JS.truthy (Some h)) eqn:Hne; [|reflexivity].
  exfalso. apply (Hno u h). unfold accepts. auto.
Qed.

Lemma resolve_eq p w db :
  resolve p w db =
    match JS.Number p with
    | JS.Finite q =>
        let fnd := UrlFindOneByShortUrl q in
        if w fnd then (Returned server_error, db, [fnd])
        else
          match List.find (fun d => Qeq_bool (inject_Z (short_url d)) q) (urls db) with
          | None => (Returned not_found, db, [fnd])
          | Some e => (Returned (res_redirect (original_url e)), db, [fnd])
          end
    | _ => (Returned invalid_url, db, [])
    end.
Proof.
  unfold resolve. destruct (JS.Number p) as [| |q]; try reflexivity.
  unfold try_catch, bind, Url_findOne_short_url, query. simpl.
  destruct (w _); [reflexivity|].
  destruct (List.find _ _); reflexivity.
Qed.

End HandlerFacts.

(** ** What the handlers do to the database *)

Lemma url_count_bumped db : url_count (bumped db) = url_count db + 1.
Proof. apply seq_of_insert. Qed.

Lemma url_count_added u db : url_count (added u db) = url_count db + 1.
Proof. apply seq_of_insert. Qed.

Lemma find_original_url_None u (l : list UrlDoc) :
  List.find (fun d => String.eqb (original_url d) u) l = None
  <-> ~ In u (map original_url l).
Proof.
  induction l as [|d l IH]; simpl; [tauto|].
  destruct (String.eqb_spec (original_url d) u) as [E|E].
  - split; [discriminate | intros Hn; exfalso; auto].
  - rewrite IH. tauto.
Qed.

Lemma find_original_url_Some u d (l : list UrlDoc) :
  List.find (fun d => String.eqb (original_url d) u) l = Some d ->
  In d l /\ original_url d = u.
Proof.
  intros Hf. apply find_some in Hf as [Hin Heq].
  split; [exact Hin | now apply String.eqb_eq].
Qed.

Lemma existsb_id_false n (l : list UrlDoc) :
  existsb (fun d => short_url d =? n) l = false
  <-> ~ In n (map short_url l).
Proof.
  induction l as [|d l IH]; simpl; [tauto|].
  rewrite orb_false_iff, IH, Z.eqb_neq. tauto.
Qed.

Lemma ids_ok_fresh db :
  ids_ok db -> ~ In (url_count db + 1) (map short_url (urls db)).
Proof.
  intros (_ & _ & Hb) Hin. apply in_map_iff in Hin as (d & Hd & Hin).
  rewrite List.Forall_forall in Hb. specialize (Hb d Hin). lia.
Qed.

Lemma effect_ids_ok db db' : effect db db' -> ids_ok db -> ids_ok db'.
Proof.
  intros He (H0 & Hnd & Hb). destruct He as [| |u Hf Hx].
  - repeat split; assumption.
  - unfold ids_ok. rewrite url_count_bumped. simpl.
    repeat split; [lia | exact Hnd |].
    eapply List.Forall_impl; [|exact Hb]. intros d Hd. simpl in Hd. lia.
  - apply existsb_id_false in Hx.
    unfold ids_ok. rewrite url_count_added. simpl.
    repeat split; [lia | |].
    + rewrite map_app. simpl. apply NoDup_app. repeat split.
      * exact Hnd.
      * intros x Hin%list_elem_of_In Hone%list_elem_of_In.
        destruct Hone as [E|[]]. subst x. auto.
      * apply NoDup_singleton.
    + rewrite Forall_app. split.
      * eapply List.Forall_impl; [|exact Hb]. intros d Hd. simpl in Hd. lia.
      * constructor; [|constructor]. simpl. lia.
Qed.

Lemma effect_url_count db db' : effect db db' -> url_count db <= url_count db'.
Proof.
  intros [| |u _ _]; rewrite ?url_count_bumped, ?url_count_added; lia.
Qed.

Lemma effect_urls_distinct db db' :
  effect db db' -> urls_distinct db -> urls_distinct db'.
Proof.
  unfold urls_distinct. intros [| |u Hf _] Hnd; simpl; auto.
  apply find_original_url_None in Hf.
  rewrite map_app. simpl. apply NoDup_app. repeat split.
  - exact Hnd.
  - intros x Hin%list_elem_of_In Hone%list_elem_of_In.
    destruct Hone as [E|[]]. subst x. auto.
  - apply NoDup_singleton.
Qed.

Lemma effect_skipped n db db' : effect db db' -> skipped n db -> skipped n db'.
Proof.
  intros He [Hle Hne]. unfold skipped.
  destruct He as [| |u _ _]; rewrite ?url_count_bumped, ?url_count_added; simpl.
  - auto.
  - split; [lia | exact Hne].
  - split; [lia|]. rewrite Forall_app. split; [exact Hne|].
    constructor; [simpl; lia | constructor].
Qed.

Section Effects.
Context `{Platform}.

(** Every run of [create] returns a response, and does to the database
    one of the three things of [effect]. *)
Lemma create_effect body w db :
  exists res db' t,
    create body w db = (Returned res, db', t) /\ effect db db'.
Proof.
  destruct (accepts_dec body) as [(u & h & Hacc)|Hno].
  - rewrite (create_accepted body u h w db Hacc). cbv zeta.
    destruct (w (DnsLookup h)); [eauto 6 using effect|].
    destruct (w (UrlFindOneByOriginalUrl u)); [eauto 6 using effect|].
    destruct (List.find _ (urls db)) as [e|] eqn:Hf; [eauto 6 using effect|].
    destruct (w (CounterFindOneAndUpdate "url_count")); [eauto 6 using effect|].
    destruct (w (UrlSave _)); simpl; [eauto 6 using effect|].
    destruct (existsb _ (urls db)) eqn:Hx; eauto 6 using effect.
  - rewrite (create_not_accepted body w db Hno). eauto 6 using effect.
Qed.

Lemma resolve_effect p w db :
  exists res t, resolve p w db = (Returned res, db, t).
Proof.
  rewrite resolve_eq. destruct (JS.Number p) as [| |q]; eauto.
  cbv zeta. destruct (w _); eauto. destruct (List.find _ _); eauto.
Qed.

Lemma handle_effect r w db :
  exists res db' t,
    handle r w db = (Returned res, db', t) /\ effect db db'.
Proof.
  destruct r as [body|p]; simpl.
  - apply create_effect.
  - destruct (resolve_effect p w db) as (res & t & E).
    exists res, db, t. split; [exact E | constructor].
Qed.

(** A property kept by every effect is kept by serving requests. *)
Lemma serve_invariant (P : DB -> Prop) :
  (forall db db', effect db db' -> P db -> P db') ->
  forall rs db, P db -> P (serve rs db).2.
Proof.
  intros Hstep rs. induction rs as [|[r w] rs IH]; intros db HP; [exact HP|].
  simpl. destruct (handle_effect r w db) as (res & db1 & t & E & He).
  rewrite E. specialize (IH db1 (Hstep _ _ He HP)).
  destruct (serve rs db1) as [os db2]. exact IH.
Qed.

End Effects.

(** ** Rejected input (create) *)

Section Create.
Context `{Platform}.

Lemma rejected_cases body w :
  rejected body w ->
  (forall u h, ~ accepts body u h)
  \/ exists u h, accepts body u h /\ w (DnsLookup h) = true.
Proof.
  intros [Hno | u Hb Hp | u parsed Hb Hp Hh1 Hh2 | u parsed Hb Hp Hh | u h Hacc Hw].
  - left. intros u h (Hb & Hu & _). rewrite Hb in Hno. congruence.
  - left. intros u' h (Hb' & _ & Hv & _).
    assert (u' = u) by congruence. subst.
    unfold isValidHttpUrl in Hv. rewrite Hp in Hv. discriminate.
  - left. intros u' h (Hb' & _ & Hv & _).
    assert (u' = u) by congruence. subst.
    unfold isValidHttpUrl in Hv. rewrite Hp in Hv.
    apply orb_true_iff in Hv as [Hv|Hv]; apply String.eqb_eq in Hv; contradiction.
  - left. intros u' h (Hb' & _ & _ & Hg & Hne).
    assert (u' = u) by congruence. subst.
    unfold getHostname in Hg. rewrite Hp in Hg.
    injection Hg as <-. rewrite Hh in Hne. discriminate.
  - right. eauto.
Qed.

(** C4: every invalid input of create (no or empty input, unparsable
    text, a scheme other than http and https, an empty hostname, a
    hostname that does not resolve) gets status 200 with the body
    [{"error": "invalid url"}], the same for every cause, and the
    database is left as it was. *)
Theorem create_rejected_invalid_url body w db :
  rejected body w ->
  exists t,
    create body w db
    = (Returned {| status := 200; payload := Json [("error", JStr "invalid url")] |},
       db, t).
Proof.
  intros Hrej. destruct (rejected_cases body w Hrej) as [Hno|(u & h & Hacc & Hw)].
  - exists []. apply create_not_accepted, Hno.
  - exists [DnsLookup h]. rewrite (create_accepted body u h w db Hacc).
    cbv zeta. rewrite Hw. reflexivity.
Qed.

(** The three rejected texts of the specification, whatever the parser
    does after the scheme, in every world. *)
Lemma create_rejects_examples w db :
  create (body_url "not a url") w db = (Returned invalid_url, db, [])
  /\ create (body_url "ftp://example.com") w db = (Returned invalid_url, db, [])
  /\ create (body_url "") w db = (Returned invalid_url, db, []).
Proof.
  split; [|split].
  - vm_compute. reflexivity.
  - unfold create.
    change (body_original_url (body_url "ftp://example.com"))
      with (Some "ftp://example.com").
    cbv beta iota zeta.
    assert (Hv : isValidHttpUrl "ftp://example.com" = false).
    { unfold isValidHttpUrl, URL.parse.
      change (URL.scheme_start_state _) with (Some ("ftp", "//example.com")).
      cbv beta iota.
      destruct (url_after_scheme "ftp" "//example.com"); reflexivity. }
    rewrite Hv. reflexivity.
  - vm_compute. reflexivity.
Qed.

End Create.

(** ** The field of the body that is read (create) *)

(** C5, as the code has it: the first of [url], [original_url] and [input]
    whose value is truthy (present and not the empty string) is taken; when
    neither [url] nor [original_url] is truthy, the value of [input] is
    taken, whatever it is. *)
Theorem body_original_url_first_truthy (body : gmap string string) :
  (JS.truthy (body !! "url") = true ->
   body_original_url body = body !! "url")
  /\ (JS.truthy (body !! "url") = false ->
      JS.truthy (body !! "original_url") = true ->
      body_original_url body = body !! "original_url")
  /\ (JS.truthy (body !! "url") = false ->
      JS.truthy (body !! "original_url") = false ->
      body_original_url body = body !! "input").
Proof.
  unfold body_original_url, JS.or.
  split; [|split].
  - intros H1. rewrite H1, H1. reflexivity.
  - intros H1 H2. rewrite H1, H2. reflexivity.
  - intros H1 H2. rewrite H1, H2. reflexivity.
Qed.

(** C5 as stated fails: a [url] field that is present but empty does not
    win over a non-empty [original_url]; the request is then served for
    the [original_url], not rejected for the empty [url]. *)
Lemma first_present_counterexample :
  first_present body_empty_url = Some ""
  /\ body_original_url body_empty_url = Some "http://example.com"
  /\ body_original_url body_empty_url <> first_present body_empty_url
  /\ @create simple_platform body_empty_url calm empty_db
     = (Returned (mapping_json {| original_url := "http://example.com"; short_url := 1 |}),
        added "http://example.com" empty_db,
        [DnsLookup "example.com";
         UrlFindOneByOriginalUrl "http://example.com";
         CounterFindOneAndUpdate "url_count";
         UrlSave {| original_url := "http://example.com"; short_url := 1 |}]).
Proof.
  assert (E1 : first_present body_empty_url = Some "") by (vm_compute; reflexivity).
  assert (E2 : body_original_url body_empty_url = Some "http://example.com")
    by (vm_compute; reflexivity).
  rewrite E1, E2.
  split; [reflexivity|split; [reflexivity|split; [discriminate|]]].
  vm_compute. reflexivity.
Qed.

Lemma body_original_url_first_truthy_witness :
  body_original_url body_empty_url = body_empty_url !! "original_url"
  /\ body_original_url (body_url "http://example.com")
     = body_url "http://example.com" !! "url"
  /\ body_original_url body_input = body_input !! "input".
Proof.
  split; [|split].
  - apply (body_original_url_first_truthy body_empty_url); vm_compute; reflexivity.
  - apply (body_original_url_first_truthy (body_url "http://example.com")).
    vm_compute; reflexivity.
  - apply (body_original_url_first_truthy body_input); vm_compute; reflexivity.
Defined.

(** When every field that is present is non-empty, the code agrees with
    the reading "first present wins". *)
Lemma body_original_url_first_present (body : gmap string string) :
  (forall k, body !! k <> Some "") ->
  body_original_url body = first_present body.
Proof.
  intros Hne. unfold body_original_url, first_present, JS.or, JS.truthy.
  pose proof (Hne "url") as H1. pose proof (Hne "original_url") as H2.
  destruct (body !! "url") as [a|].
  - assert (Ea : String.eqb a "" = false) by (apply String.eqb_neq; congruence).
    simpl. rewrite Ea. simpl. rewrite Ea. reflexivity.
  - simpl. destruct (body !! "original_url") as [b|]; [|reflexivity].
    assert (Eb : String.eqb b "" = false) by (apply String.eqb_neq; congruence).
    simpl. rewrite Eb. reflexivity.
Qed.

(** ** The [Location] of a redirect *)

Section ExpressFacts.
Context `{Platform}.

(** [encodeUrl] leaves a plain text as it is. *)
Lemma encodeUrl_plain url :
  Express.plain url = true -> Express.encodeUrl url = url.
Proof.
  induction url as [|c r IH]; [reflexivity|].
  intros Hp. cbn [Express.plain] in Hp.
  apply andb_true_iff in Hp as [Hp Hr]. apply andb_true_iff in Hp as [Hk Hpc].
  cbn [Express.encodeUrl]. rewrite Hk. cbn [negb].
  destruct (Ascii.eqb c "%").
  - destruct r as [|a [|b r2]]; try discriminate Hpc.
    apply andb_true_iff in Hpc as [Ha Hb]. rewrite Ha, Hb. cbn [negb].
    f_equal. apply IH, Hr.
  - f_equal. apply IH, Hr.
Qed.

(** The alias ["back"] is no URL that the checks of create accept. *)
Lemma isValidHttpUrl_back : isValidHttpUrl "back" = false.
Proof. reflexivity. Qed.

(** For a text that [isValidHttpUrl] accepts, [res.location] is
    [encodeUrl]. *)
Lemma location_valid url :
  isValidHttpUrl url = true -> Express.location url = Express.encodeUrl url.
Proof.
  intros Hv. unfold Express.location.
  destruct back_location as [loc|]; [|reflexivity].
  destruct (String.eqb_spec url "back") as [->|_]; [|reflexivity].
  rewrite isValidHttpUrl_back in Hv. discriminate Hv.
Qed.

Lemma location_plain url :
  url <> "back" -> Express.plain url = true -> Express.location url = url.
Proof.
  intros Hb Hp. unfold Express.location.
  destruct back_location as [loc|]; [|apply encodeUrl_plain, Hp].
  destruct (String.eqb_spec url "back") as [E|_]; [contradiction|].
  apply encodeUrl_plain, Hp.
Qed.

End ExpressFacts.

(** ** Resolve *)

Lemma find_short_url_None q (l : list UrlDoc) :
  Forall (fun d => ~ inject_Z (short_url d) == q) l ->
  List.find (fun d => Qeq_bool (inject_Z (short_url d)) q) l = None.
Proof.
  induction 1 as [|d l Hd _ IH]; simpl; [reflexivity|].
  destruct (Qeq_bool (inject_Z (short_url d)) q) eqn:E; [|exact IH].
  apply Qeq_bool_iff in E. contradiction.
Qed.

Section ResolveErrors.
Context `{Platform}.

Lemma resolve_not_found p q w db :
  JS.Number p = JS.Finite q ->
  w (UrlFindOneByShortUrl q) = false ->
  Forall (fun d => ~ inject_Z (short_url d) == q) (urls db) ->
  resolve p w db = (Returned not_found, db, [UrlFindOneByShortUrl q]).
Proof.
  intros Hn Hw Hno. rewrite resolve_eq, Hn. cbv zeta.
  rewrite Hw, (find_short_url_None q (urls db) Hno). reflexivity.
Qed.

(** C6: a path parameter that [Number] does not convert to a finite
    number gets status 200 with the body [{"error": "invalid url"}], and
    no call is made: the collection is not read. *)
Theorem resolve_not_finite p w db :
  JS.isFinite (JS.Number p) = false ->
  resolve p w db
  = (Returned {| status := 200; payload := Json [("error", JStr "invalid url")] |},
     db, []).
Proof.
  intros Hnf. rewrite resolve_eq.
  destruct (JS.Number p); [reflexivity | reflexivity | discriminate Hnf].
Qed.

(** C7: a path parameter that converts to a finite number equal to no
    stored [short_url] gets status 404 with the body
    [{"error": "No short URL found for given input"}], when the lookup
    itself does not fail. *)
Theorem resolve_no_mapping p q w db :
  JS.Number p = JS.Finite q ->
  w (UrlFindOneByShortUrl q) = false ->
  Forall (fun d => ~ inject_Z (short_url d) == q) (urls db) ->
  resolve p w db
  = (Returned {| status := 404;
                 payload := Json [("error", JStr "No short URL found for given input")] |},
     db, [UrlFindOneByShortUrl q]).
Proof.
  intros Hn Hw Hno. apply resolve_not_found; assumption.
Qed.

(** C10: the check of resolve lets through every text that [Number]
    converts to a finite value, integer or not: the collection is then
    read and the response is never the invalid-url one.  ["3.5"] and
    ["1e3"] are such texts; ["3.5"] equals no [short_url] and gets the 404
    response, and so does ["1e3"] when no mapping has the id 1000. *)
Theorem resolve_finite_not_only_integers :
  (forall p q w db,
      JS.Number p = JS.Finite q ->
      exists res,
        resolve p w db = (Returned res, db, [UrlFindOneByShortUrl q])
        /\ res <> invalid_url)
  /\ JS.Number "3.5" = JS.Finite (7 # 2)
  /\ JS.Number "1e3" = JS.Finite (1000 # 1)
  /\ (forall w db,
         w (UrlFindOneByShortUrl (7 # 2)) = false ->
         resolve "3.5" w db = (Returned not_found, db, [UrlFindOneByShortUrl (7 # 2)]))
  /\ (forall w db,
         w (UrlFindOneByShortUrl (1000 # 1)) = false ->
         Forall (fun d => short_url d <> 1000) (urls db) ->
         resolve "1e3" w db
         = (Returned not_found, db, [UrlFindOneByShortUrl (1000 # 1)])).
Proof.
  assert (N1 : JS.Number "3.5" = JS.Finite (7 # 2)) by (vm_compute; reflexivity).
  assert (N2 : JS.Number "1e3" = JS.Finite (1000 # 1)) by (vm_compute; reflexivity).
  split; [|split; [exact N1|split; [exact N2|split]]].
  - intros p q w db Hn. rewrite resolve_eq, Hn. cbv zeta.
    destruct (w _); [eexists; split; [reflexivity|discriminate]|].
    destruct (List.find _ _); eexists; (split; [reflexivity|discriminate]).
  - intros w db Hw. apply resolve_not_found; auto.
    apply List.Forall_forall. intros d _. unfold Qeq, inject_Z. simpl. lia.
  - intros w db Hw Hno. apply resolve_not_found; auto.
    eapply List.Forall_impl; [|exact Hno].
    intros d Hd. unfold Qeq, inject_Z. simpl in *. lia.
Qed.

End ResolveErrors.

Lemma resolve_not_finite_witness :
  @resolve simple_platform "abc" calm db_one = (Returned invalid_url, db_one, [])
  /\ @resolve simple_platform "Infinity" calm db_one = (Returned invalid_url, db_one, [])
  /\ @resolve simple_platform "1e999" calm db_one = (Returned invalid_url, db_one, []).
Proof.
  split; [|split]; apply (@resolve_not_finite simple_platform); vm_compute; reflexivity.
Defined.

Lemma resolve_no_mapping_witness :
  @resolve simple_platform "999999" calm db_one
  = (Returned not_found, db_one, [UrlFindOneByShortUrl (999999 # 1)]).
Proof.
  apply (@resolve_no_mapping simple_platform "999999" (999999 # 1) calm db_one).
  - vm_compute; reflexivity.
  - reflexivity.
  - repeat constructor. vm_compute. discriminate.
Defined.

Lemma resolve_finite_not_only_integers_witness :
  @resolve simple_platform "3.5" calm db_one = (Returned not_found, db_one, [UrlFindOneByShortUrl (7 # 2)])
  /\ @resolve simple_platform "1e3" calm db_one
     = (Returned not_found, db_one, [UrlFindOneByShortUrl (1000 # 1)]).
Proof.
  destruct (@resolve_finite_not_only_integers simple_platform) as (_ & _ & _ & H35 & H1e3).
  split.
  - apply H35. reflexivity.
  - apply H1e3; [reflexivity|]. repeat constructor. vm_compute. discriminate.
Defined.

(** ** Create followed by resolve; sequences of creates *)

Lemma Qeq_bool_id a b : Qeq_bool (inject_Z a) (b # 1) = (a =? b).
Proof.
  destruct (Z.eqb_spec a b) as [->|Hne].
  - apply Qeq_bool_iff. reflexivity.
  - destruct (Qeq_bool (inject_Z a) (b # 1)) eqn:E; [|reflexivity].
    apply Qeq_bool_iff in E. unfold Qeq, inject_Z in E. simpl in E. lia.
Qed.

Lemma find_app_None {A} (f : A -> bool) (l l' : list A) :
  List.find f l = None -> List.find f (l ++ l') = List.find f l'.
Proof.
  induction l as [|a l IH]; simpl; [reflexivity|].
  destruct (f a); [discriminate | exact IH].
Qed.

(** With pairwise distinct ids, the lookup by the id of a stored document
    finds that document. *)
Lemma find_short_url_of (l : list UrlDoc) e :
  NoDup (map short_url l) -> In e l ->
  List.find (fun d => Qeq_bool (inject_Z (short_url d)) (short_url e # 1)) l = Some e.
Proof.
  induction l as [|d l IH]; simpl; [tauto|].
  intros Hnd Hin. apply NoDup_cons in Hnd as [Hd Hnd].
  rewrite Qeq_bool_id.
  destruct (Z.eqb_spec (short_url d) (short_url e)) as [E|E].
  - destruct Hin as [->|Hin]; [reflexivity|].
    exfalso. apply Hd. rewrite E. apply list_elem_of_In, in_map, Hin.
  - destruct Hin as [->|Hin]; [congruence|]. apply IH; assumption.
Qed.

Lemma storage_up_calm w : (forall c, w c = false) -> storage_up w.
Proof. intros Hw c. destruct c; auto. Qed.

Section Service.
Context `{Platform}.

(** The run of [create] for an accepted URL when no call fails. *)
Lemma create_succeeds body u h w db :
  accepts body u h -> w (DnsLookup h) = false -> storage_up w -> ids_ok db ->
  exists d db' t,
    create body w db = (Returned (mapping_json d), db', t)
    /\ original_url d = u
    /\ effect db db'
    /\ List.find (fun x => String.eqb (original_url x) u) (urls db') = Some d
    /\ In d (urls db')
    /\ match List.find (fun x => String.eqb (original_url x) u) (urls db) with
       | Some e => d = e /\ db' = db
       | None => short_url d = url_count db + 1 /\ db' = added u db
       end.
Proof.
  intros Hacc Hdns Hup Hok.
  rewrite (create_accepted body u h w db Hacc). cbv zeta.
  rewrite Hdns.
  rewrite (Hup (UrlFindOneByOriginalUrl u)).
  destruct (List.find _ (urls db)) as [e|] eqn:Hf.
  - destruct (find_original_url_Some u e _ Hf) as [Hin Hu].
    exists e, db. eexists. rewrite Hf. repeat apply conj; auto. constructor.
  - rewrite (Hup (CounterFindOneAndUpdate "url_count")).
    rewrite (Hup (UrlSave _)).
    assert (Hx : existsb (fun d => short_url d =? url_count db + 1) (urls db) = false)
      by (apply existsb_id_false, ids_ok_fresh, Hok).
    rewrite Hx. simpl.
    exists {| original_url := u; short_url := url_count db + 1 |}, (added u db).
    eexists. repeat apply conj; auto.
    + constructor; assumption.
    + simpl. rewrite (find_app_None _ _ _ Hf). simpl.
      rewrite String.eqb_refl. reflexivity.
    + simpl. apply in_or_app. right. left. reflexivity.
Qed.


(** Creating twice with the same body: the second call gives the answer
    of the first and leaves the database of the first. *)
Lemma create_twice body u h w w' db :
  accepts body u h ->
  w (DnsLookup h) = false -> w' (DnsLookup h) = false ->
  storage_up w -> storage_up w' ->
  ids_ok db ->
  exists res db' t t',
    create body w db = (Returned res, db', t)
    /\ create body w' db' = (Returned res, db', t')
    /\ ~ In (CounterFindOneAndUpdate "url_count") t'.
Proof.
  intros Hacc Hdns Hdns' Hup Hup' Hok.
  destruct (create_succeeds body u h w db Hacc Hdns Hup Hok)
    as (d & db' & t & Hc & Hu & Heff & Hf & _ & _).
  exists (mapping_json d), db', t,
    [DnsLookup h; UrlFindOneByOriginalUrl u].
  split; [exact Hc|].
  rewrite (create_accepted body u h w' db' Hacc). cbv zeta.
  rewrite Hdns', (Hup' (UrlFindOneByOriginalUrl u)), Hf.
  split; [reflexivity|].
  simpl. intros [E|[E|[]]]; discriminate E.
Qed.

(** C3: when the collection already has a mapping for the URL of the
    body, create leaves the database as it is and does not call the
    counter, whatever the world answers; and when the URL passes the
    checks again, its hostname resolves and the lookup does not fail,
    the answer is the stored mapping, with its id. *)
Theorem create_existing_is_idempotent body u d w db :
  body_original_url body = Some u ->
  List.find (fun x => String.eqb (original_url x) u) (urls db) = Some d ->
  exists res t,
    create body w db = (Returned res, db, t)
    /\ ~ In (CounterFindOneAndUpdate "url_count") t
    /\ (forall h,
           accepts body u h ->
           w (DnsLookup h) = false ->
           w (UrlFindOneByOriginalUrl u) = false ->
           res = {| status := 200;
                    payload := Json [("original_url", JStr u);
                                     ("short_url", JNum (short_url d))] |}).
Proof.
  intros Hb Hf.
  destruct (find_original_url_Some u d _ Hf) as [_ Hu].
  destruct (accepts_dec body) as [(u' & h & Hacc)|Hno].
  - assert (u' = u) by (destruct Hacc as (E & _); congruence). subst u'.
    rewrite (create_accepted body u h w db Hacc). cbv zeta. rewrite Hf.
    destruct (w (DnsLookup h)) eqn:Hdns;
      [| destruct (w (UrlFindOneByOriginalUrl u)) eqn:Hfind ];
      eexists; eexists; (split; [reflexivity|]); (split; [simpl; intuition discriminate|]);
      intros h' Hacc' Hdns' Hfind';
      destruct (accepts_fun body u h u h' Hacc Hacc') as [_ ->];
      try congruence.
    unfold mapping_json, res_json. rewrite Hu. reflexivity.
  - rewrite (create_not_accepted body w db Hno).
    eexists; eexists; split; [reflexivity|]. split; [simpl; tauto|].
    intros h Hacc. destruct (Hno u h Hacc).
Qed.

(** C8: when the save of create fails (the storage rejects it, or the
    id is already there) after the counter was incremented, the answer
    is status 500 with the body [{"error": "server error"}], the
    collection is as before and the counter keeps its new value; from a
    database the service has produced, whatever requests are served
    afterwards, the counter never goes back below that value and no
    document ever carries it. *)
Theorem create_failed_save_skips_id body u h w db :
  accepts body u h ->
  w (DnsLookup h) = false ->
  w (UrlFindOneByOriginalUrl u) = false ->
  List.find (fun x => String.eqb (original_url x) u) (urls db) = None ->
  w (CounterFindOneAndUpdate "url_count") = false ->
  w (UrlSave {| original_url := u; short_url := url_count db + 1 |})
  || existsb (fun d => short_url d =? url_count db + 1) (urls db) = true ->
  exists db' t,
    create body w db
    = (Returned {| status := 500; payload := Json [("error", JStr "server error")] |},
       db', t)
    /\ In (CounterFindOneAndUpdate "url_count") t
    /\ urls db' = urls db
    /\ url_count db' = url_count db + 1
    /\ (ids_ok db -> forall rs, skipped (url_count db + 1) (serve rs db').2).
Proof.
  intros Hacc Hdns Hfind Hf Hinc Hsave.
  exists (bumped db). eexists.
  rewrite (create_accepted body u h w db Hacc). cbv zeta.
  rewrite Hdns, Hfind, Hf, Hinc, Hsave.
  split; [reflexivity|].
  split; [simpl; auto|].
  split; [reflexivity|].
  split; [apply url_count_bumped|].
  intros (H0 & _ & Hb) rs.
  apply (serve_invariant (skipped (url_count db + 1))).
  - intros db1 db2 He. apply effect_skipped, He.
  - split; [rewrite url_count_bumped; lia|]. simpl.
    eapply List.Forall_impl; [|exact Hb]. intros d Hd. simpl in Hd. lia.
Qed.

(** C9: create keeps the [original_url]s of the collection pairwise
    distinct: it looks the URL up before it saves, and a document is
    saved only when the lookup found no mapping with that
    [original_url]. *)
Theorem create_keeps_urls_distinct body w db :
  urls_distinct db ->
  exists res db' t,
    create body w db = (Returned res, db', t)
    /\ urls_distinct db'
    /\ (urls db' = urls db
        \/ exists doc h,
             urls db' = urls db ++ [doc]
             /\ ~ In (original_url doc) (map original_url (urls db))
             /\ t = [DnsLookup h;
                     UrlFindOneByOriginalUrl (original_url doc);
                     CounterFindOneAndUpdate "url_count";
                     UrlSave doc])
    /\ (forall doc, In (UrlSave doc) t ->
                    ~ In (original_url doc) (map original_url (urls db))).
Proof.
  intros Hnd.
  destruct (accepts_dec body) as [(u & h & Hacc)|Hno].
  - rewrite (create_accepted body u h w db Hacc). cbv zeta.
    destruct (w (DnsLookup h));
      [eexists; exists db; eexists; split; [reflexivity|];
       split; [exact Hnd|]; split; [left; reflexivity|];
       simpl; intuition discriminate|].
    destruct (w (UrlFindOneByOriginalUrl u));
      [eexists; exists db; eexists; split; [reflexivity|];
       split; [exact Hnd|]; split; [left; reflexivity|];
       simpl; intuition discriminate|].
    destruct (List.find _ (urls db)) as [e|] eqn:Hf;
      [eexists; exists db; eexists; split; [reflexivity|];
       split; [exact Hnd|]; split; [left; reflexivity|];
       simpl; intuition discriminate|].
    destruct (w (CounterFindOneAndUpdate "url_count"));
      [eexists; exists db; eexists; split; [reflexivity|];
       split; [exact Hnd|]; split; [left; reflexivity|];
       simpl; intuition discriminate|].
    assert (Hnew : ~ In u (map original_url (urls db)))
      by (apply find_original_url_None, Hf).
    assert (Hsaved : forall doc,
               In (UrlSave doc)
                  [DnsLookup h; UrlFindOneByOriginalUrl u;
                   CounterFindOneAndUpdate "url_count";
                   UrlSave {| original_url := u; short_url := url_count db + 1 |}] ->
               ~ In (original_url doc) (map original_url (urls db))).
    { intros doc Hin. simpl in Hin.
      destruct Hin as [E|[E|[E|[E|[]]]]]; try discriminate E.
      injection E as <-. exact Hnew. }
    destruct (w (UrlSave _) || existsb _ (urls db)) eqn:Hs.
    + eexists; exists (bumped db); eexists; split; [reflexivity|].
      split; [exact Hnd|]. split; [left; reflexivity|].
      exact Hsaved.
    + apply orb_false_iff in Hs as [_ Hx].
      eexists; exists (added u db); eexists; split; [reflexivity|].
      split; [apply (effect_urls_distinct db); [constructor|]; assumption|].
      split.
      * right. eexists; exists h. split; [reflexivity|]. split; [exact Hnew|reflexivity].
      * exact Hsaved.
  - rewrite (create_not_accepted body w db Hno).
    eexists; exists db; eexists; split; [reflexivity|].
    split; [exact Hnd|]. split; [left; reflexivity|]. simpl. tauto.
Qed.

(** Whatever requests are served from the empty database, the ids stay
    in order and the URLs pairwise distinct. *)
Lemma serve_from_empty rs :
  ids_ok (serve rs empty_db).2 /\ urls_distinct (serve rs empty_db).2.
Proof.
  split.
  - apply (serve_invariant ids_ok).
    + intros db db' He. apply effect_ids_ok, He.
    + unfold ids_ok, empty_db, url_count, seq_of. simpl.
      repeat apply conj; [reflexivity | constructor | constructor].
  - apply (serve_invariant urls_distinct).
    + intros db db' He. apply effect_urls_distinct, He.
    + constructor.
Qed.

End Service.

(** ** Sequences of creates *)

Lemma numbered_ids k us :
  map short_url (numbered (Z.of_nat k) us) = map Z.of_nat (seq k (length us)).
Proof.
  revert k. induction us as [|u us IH]; intros k; simpl; [reflexivity|].
  f_equal. rewrite <- IH. f_equal. f_equal. lia.
Qed.

Lemma numbered_urls k us : map original_url (numbered k us) = us.
Proof.
  revert k. induction us as [|u us IH]; intros k; simpl; [reflexivity|].
  f_equal. apply IH.
Qed.

Lemma ids_ok_empty db : ids_ok db -> url_count db = 0 -> urls db = [].
Proof.
  intros (_ & _ & Hb) H0. destruct (urls db) as [|d l]; [reflexivity|].
  apply Forall_cons_iff in Hb as [Hd _]. lia.
Qed.

Section Sequences.
Context `{Platform}.

(** Accepted creates of new, pairwise distinct URLs get the ids that
    follow the counter, in the order of the requests. *)
Lemma serve_creates subs us : forall db,
  ids_ok db ->
  Forall2 submits subs us ->
  NoDup us ->
  (forall u, In u us -> ~ In u (map original_url (urls db))) ->
  exists db',
    serve (creates subs) db
    = (map (fun d => Returned (mapping_json d)) (numbered (url_count db + 1) us), db')
    /\ urls db' = urls db ++ numbered (url_count db + 1) us
    /\ url_count db' = url_count db + Z.of_nat (length us).
Proof.
  intros db Hok Hsub. revert db Hok.
  induction Hsub as [|s u subs us [[h Hacc] Hcalm] _ IH]; intros db Hok Hnd Hnew.
  - exists db. simpl. rewrite app_nil_r. repeat apply conj; [reflexivity..|lia].
  - apply NoDup_cons in Hnd as [Hu Hnd].
    assert (Hf : List.find (fun x => String.eqb (original_url x) u) (urls db) = None)
      by (apply find_original_url_None, Hnew; left; reflexivity).
    destruct (create_succeeds s.1 u h s.2 db Hacc (Hcalm _) (storage_up_calm _ Hcalm) Hok)
      as (d & db1 & t & Hc & Hd & Heff & _ & _ & Hcase).
    rewrite Hf in Hcase. destruct Hcase as [Hid ->].
    assert (Ed : d = {| original_url := u; short_url := url_count db + 1 |})
      by (destruct d; simpl in *; congruence).
    subst d.
    destruct (IH (added u db)) as (db2 & Hs & Hurls & Hcount).
    + apply (effect_ids_ok db); assumption.
    + exact Hnd.
    + intros u' Hin. simpl. rewrite map_app, in_app_iff. simpl.
      intros [Hold|[E|[]]].
      * apply (Hnew u'); [right; exact Hin | exact Hold].
      * subst u'. apply Hu, list_elem_of_In, Hin.
    + rewrite url_count_added in Hs, Hurls, Hcount.
      exists db2. simpl creates. simpl serve. rewrite Hc. cbv beta iota.
      rewrite Hs. simpl.
      repeat apply conj; [reflexivity| |lia].
      rewrite Hurls. simpl. rewrite <- app_assoc. reflexivity.
Qed.

(** C2: from a database of the service whose counter has no document
    yet, N creates of pairwise distinct accepted URLs, served one after
    the other in worlds where nothing fails, are answered with the ids
    1, 2, ..., N in the order of the requests.  Each call of the
    allocator that does not fail returns the incremented value and
    stores it, counting from 0 when the counter has no document. *)
Theorem sequential_creates_ids_from_one subs us db :
  counters db !! "url_count" = None ->
  ids_ok db ->
  Forall2 submits subs us ->
  NoDup us ->
  (serve (creates subs) db).1
  = map (fun d => Returned (mapping_json d)) (numbered 1 us)
  /\ map short_url (numbered 1 us) = map Z.of_nat (seq 1 (length us))
  /\ map original_url (numbered 1 us) = us
  /\ (forall name w db0,
         w (CounterFindOneAndUpdate name) = false ->
         exists db1,
           getNextSequence name w db0
           = (Returned (default 0 (counters db0 !! name) + 1), db1,
              [CounterFindOneAndUpdate name])
           /\ counters db1 !! name = Some (default 0 (counters db0 !! name) + 1)
           /\ urls db1 = urls db0).
Proof.
  intros Habsent Hok Hsub Hnd.
  assert (H0 : url_count db = 0).
  { unfold url_count, seq_of. rewrite Habsent. reflexivity. }
  assert (He : urls db = []) by (apply ids_ok_empty; assumption).
  split; [|split; [|split]].
  - destruct (serve_creates subs us db Hok Hsub Hnd) as (db' & Hs & _).
    + intros u _. rewrite He. simpl. tauto.
    + rewrite Hs, H0. reflexivity.
  - apply (numbered_ids 1).
  - apply numbered_urls.
  - intros name w db0 Hw. rewrite getNextSequence_eq, Hw.
    eexists. split; [reflexivity|]. simpl. split; [apply lookup_insert_eq|reflexivity].
Qed.

End Sequences.

(** ** The properties on examples *)

Lemma accepts_example :
  @accepts simple_platform (body_url "http://example.com")
    "http://example.com" "example.com".
Proof. unfold accepts. repeat apply conj; vm_compute; reflexivity. Defined.

Lemma accepts_example2 :
  @accepts simple_platform (body_url "https://www.freecodecamp.org/learn")
    "https://www.freecodecamp.org/learn" "www.freecodecamp.org".
Proof. unfold accepts. repeat apply conj; vm_compute; reflexivity. Defined.


Lemma ids_ok_empty_db : ids_ok empty_db.
Proof.
  unfold ids_ok. repeat apply conj.
  - vm_compute. discriminate.
  - constructor.
  - constructor.
Defined.

Lemma ids_ok_db_one : ids_ok db_one.
Proof.
  unfold ids_ok. repeat apply conj.
  - vm_compute. discriminate.
  - simpl. constructor; [intros Hin; inversion Hin | constructor].
  - constructor; [|constructor]. vm_compute. split; discriminate.
Defined.



Lemma sequential_creates_ids_from_one_witness :
  (@serve simple_platform
     (creates [(body_url "http://example.com", calm);
               (body_url "https://www.freecodecamp.org/learn", calm)])
     empty_db).1
  = map (fun d => Returned (mapping_json d))
      (numbered 1 ["http://example.com"; "https://www.freecodecamp.org/learn"]).
Proof.
  apply (@sequential_creates_ids_from_one simple_platform
           [(body_url "http://example.com", calm);
            (body_url "https://www.freecodecamp.org/learn", calm)]
           ["http://example.com"; "https://www.freecodecamp.org/learn"]
           empty_db).
  - reflexivity.
  - exact ids_ok_empty_db.
  - constructor; [|constructor; [|constructor]].
    + split; [exists "example.com"; exact accepts_example | reflexivity].
    + split; [exists "www.freecodecamp.org"; exact accepts_example2 | reflexivity].
  - constructor; [|constructor; [|constructor]].
    + intros Hin%list_elem_of_In. destruct Hin as [E|[]]. discriminate E.
    + intros Hin%list_elem_of_In. destruct Hin.
Defined.

Lemma create_existing_is_idempotent_witness :
  exists res t,
    @create simple_platform (body_url "http://example.com") calm db_one
    = (Returned res, db_one, t)
    /\ ~ In (CounterFindOneAndUpdate "url_count") t
    /\ res = {| status := 200;
                payload := Json [("original_url", JStr "http://example.com");
                                 ("short_url", JNum 1)] |}.
Proof.
  destruct (@create_existing_is_idempotent simple_platform
              (body_url "http://example.com") "http://example.com"
              {| original_url := "http://example.com"; short_url := 1 |}
              calm db_one eq_refl eq_refl) as (res & t & Hc & Hno & Hres).
  exists res, t. split; [exact Hc|]. split; [exact Hno|].
  apply (Hres "example.com"); [exact accepts_example | reflexivity | reflexivity].
Defined.

Lemma create_rejected_invalid_url_witness :
  (exists t, @create simple_platform (body_url "not a url") calm db_one
             = (Returned invalid_url, db_one, t))
  /\ (exists t, @create simple_platform (body_url "ftp://example.com") calm db_one
                = (Returned invalid_url, db_one, t))
  /\ (exists t, @create simple_platform (body_url "") calm db_one
                = (Returned invalid_url, db_one, t))
  /\ (exists t, @create simple_platform (body_url "http://example.com") offline db_one
                = (Returned invalid_url, db_one, t)).
Proof.
  split; [|split; [|split]];
    apply (@create_rejected_invalid_url simple_platform).
  - apply (Unparsable _ _ "not a url"); vm_compute; reflexivity.
  - apply (OtherScheme _ _ "ftp://example.com"
             {| URL.protocol := "ftp:"; URL.hostname := "example.com" |});
      vm_compute; (reflexivity || discriminate).
  - apply NoInput. vm_compute. reflexivity.
  - apply (Unresolvable _ _ "http://example.com" "example.com");
      [exact accepts_example | reflexivity].
Defined.

Lemma create_failed_save_skips_id_witness :
  exists db' t,
    @create simple_platform (body_url "https://www.freecodecamp.org/learn") save_fails db_one
    = (Returned server_error, db', t)
    /\ In (CounterFindOneAndUpdate "url_count") t
    /\ urls db' = urls db_one
    /\ url_count db' = 2
    /\ forall rs, skipped 2 (@serve simple_platform rs db').2.
Proof.
  destruct (@create_failed_save_skips_id simple_platform
              (body_url "https://www.freecodecamp.org/learn")
              "https://www.freecodecamp.org/learn" "www.freecodecamp.org"
              save_fails db_one accepts_example2 eq_refl eq_refl eq_refl eq_refl eq_refl)
    as (db' & t & Hc & Hin & Hu & Hn & Hskip).
  exists db', t. repeat apply conj; try assumption.
  exact (Hskip ids_ok_db_one).
Defined.

Lemma create_keeps_urls_distinct_witness :
  exists res db' t,
    @create simple_platform (body_url "https://www.freecodecamp.org/learn") calm db_one
    = (Returned res, db', t)
    /\ urls_distinct db'.
Proof.
  destruct (@create_keeps_urls_distinct simple_platform
              (body_url "https://www.freecodecamp.org/learn") calm db_one)
    as (res & db' & t & Hc & Hd & _).
  - constructor; [intros Hin; inversion Hin | constructor].
  - exists res, db', t. split; assumption.
Defined.

(** * Further properties of the code *)

(** ** The allocator *)

(** X1: [k] calls of [getNextSequence] that do not fail return the [k]
    values that follow the current [seq] of the counter (from 1 when the
    counter has no document), in order, and leave the counter at the last
    of them; the [Url] collection is not touched. *)
Theorem next_sequences_consecutive k name w db :
  w (CounterFindOneAndUpdate name) = false ->
  exists db',
    next_sequences k name w db
    = (Returned (map (fun i => seq_of name db + Z.of_nat i) (seq 1 k)), db',
       repeat (CounterFindOneAndUpdate name) k)
    /\ seq_of name db' = seq_of name db + Z.of_nat k
    /\ urls db' = urls db.
Proof.
  intros Hw. revert db. induction k as [|k IH]; intros db.
  - exists db. simpl. split; [reflexivity|]. split; [lia|reflexivity].
  - cbn [next_sequences]. unfold bind at 1. rewrite getNextSequence_eq, Hw.
    set (db1 := {| urls := urls db;
                   counters := <[name := seq_of name db + 1]> (counters db) |}).
    destruct (IH db1) as (db' & Hrun & Hseq & Hurls).
    assert (H1 : seq_of name db1 = seq_of name db + 1) by apply seq_of_insert.
    exists db'. unfold bind at 1. rewrite Hrun. unfold ret. simpl.
    split; [|split].
    + rewrite app_nil_r. do 4 f_equal.
      rewrite <- (seq_shift k 1), map_map. apply map_ext. intros i. rewrite H1. lia.
    + rewrite Hseq, H1. lia.
    + rewrite Hurls. reflexivity.
Qed.

Lemma next_sequences_consecutive_witness :
  exists db',
    next_sequences 3 "url_count" calm db_one
    = (Returned [2; 3; 4], db', repeat (CounterFindOneAndUpdate "url_count") 3)
    /\ seq_of "url_count" db' = 4
    /\ urls db' = urls db_one.
Proof.
  apply (next_sequences_consecutive 3 "url_count" calm db_one). reflexivity.
Defined.

(** X2: a call of [getNextSequence], whether it fails or not, never
    lowers the counter it is called on, and changes neither the [Url]
    collection nor any other counter. *)
Theorem getNextSequence_frame name other w db :
  other <> name ->
  exists o db' t,
    getNextSequence name w db = (o, db', t)
    /\ seq_of name db <= seq_of name db'
    /\ seq_of other db' = seq_of other db
    /\ urls db' = urls db.
Proof.
  intros Hne. rewrite getNextSequence_eq.
  destruct (w _); eexists; eexists; eexists; (split; [reflexivity|]).
  - split; [lia|]. split; reflexivity.
  - split; [rewrite seq_of_insert; lia|]. split; [|reflexivity].
    unfold seq_of. simpl. rewrite lookup_insert_ne by congruence. reflexivity.
Qed.

Lemma getNextSequence_frame_witness :
  exists o db' t,
    getNextSequence "url_count" calm db_two_counters = (o, db', t)
    /\ seq_of "url_count" db_two_counters <= seq_of "url_count" db'
    /\ seq_of "other" db' = seq_of "other" db_two_counters
    /\ urls db' = urls db_two_counters.
Proof.
  apply (getNextSequence_frame "url_count" "other" calm db_two_counters).
  discriminate.
Defined.

(** ** The helpers *)

Section Helpers.
Context `{Platform}.

(** A leading space or control character is dropped by [new URL]. *)
Lemma parse_leading_space c s :
  URL.is_c0_or_space c = true -> URL.parse (String c s) = URL.parse s.
Proof.
  intros Hc. unfold URL.parse. simpl JS.drop_while. rewrite Hc. reflexivity.
Qed.

(** X3: when [isValidHttpUrl] accepts a text, [new URL] parsed it with
    the protocol [http:] or [https:], and [getHostname] returns the
    hostname of that parse, never [null]; when [getHostname] returns
    [null], [isValidHttpUrl] refuses the text.  Both helpers ignore a
    leading space or control character. *)
Theorem helpers_agree input :
  (isValidHttpUrl input = true ->
   exists parsed,
     URL.parse input = Some parsed
     /\ (URL.protocol parsed = "http:" \/ URL.protocol parsed = "https:")
     /\ getHostname input = Some (URL.hostname parsed))
  /\ (getHostname input = None -> isValidHttpUrl input = false)
  /\ (forall c,
         URL.is_c0_or_space c = true ->
         isValidHttpUrl (String c input) = isValidHttpUrl input
         /\ getHostname (String c input) = getHostname input).
Proof.
  unfold isValidHttpUrl, getHostname. split; [|split].
  - destruct (URL.parse input) as [parsed|]; [|discriminate].
    intros Hv. exists parsed. split; [reflexivity|]. split; [|reflexivity].
    apply orb_true_iff in Hv as [Hv|Hv]; apply String.eqb_eq in Hv; auto.
  - destruct (URL.parse input); [discriminate | reflexivity].
  - intros c Hc. rewrite (parse_leading_space c input Hc). split; reflexivity.
Qed.

End Helpers.

Lemma helpers_agree_witness :
  (exists parsed,
      @URL.parse simple_platform "https://www.freecodecamp.org/learn" = Some parsed
      /\ (URL.protocol parsed = "http:" \/ URL.protocol parsed = "https:")
      /\ @getHostname simple_platform "https://www.freecodecamp.org/learn"
         = Some (URL.hostname parsed))
  /\ @isValidHttpUrl simple_platform "not a url" = false
  /\ @isValidHttpUrl simple_platform " http://example.com"
     = @isValidHttpUrl simple_platform "http://example.com".
Proof.
  split; [|split].
  - apply (@helpers_agree simple_platform "https://www.freecodecamp.org/learn").
    vm_compute. reflexivity.
  - apply (@helpers_agree simple_platform "not a url"). vm_compute. reflexivity.
  - destruct (@helpers_agree simple_platform "http://example.com") as (_ & _ & Hsp).
    apply (Hsp " "%char). vm_compute. reflexivity.
Defined.

(** ** Create: calls, failures and answers *)

Section CreateMore.
Context `{Platform}.

(** X4: create always returns a response.  A body that fails a check is
    answered without any outbound call.  Otherwise the calls are, in this
    order and each only after the one before succeeded, the DNS lookup of
    the hostname, the lookup of the URL, the update of the counter and the
    save; when the DNS lookup fails nothing is asked of the database. *)
Theorem create_call_order body w db :
  exists res db' t,
    create body w db = (Returned res, db', t)
    /\ ((t = [] /\ db' = db /\ res = invalid_url /\ forall u h, ~ accepts body u h)
        \/ exists u h t',
             accepts body u h
             /\ t = DnsLookup h :: t'
             /\ t' `prefix_of`
                  [UrlFindOneByOriginalUrl u;
                   CounterFindOneAndUpdate "url_count";
                   UrlSave {| original_url := u; short_url := url_count db + 1 |}]
             /\ (w (DnsLookup h) = true -> t' = [] /\ db' = db /\ res = invalid_url)).
Proof.
  destruct (accepts_dec body) as [(u & h & Hacc)|Hno].
  - rewrite (create_accepted body u h w db Hacc). cbv zeta.
    destruct (w (DnsLookup h)) eqn:Hdns.
    { eexists; eexists; eexists; split; [reflexivity|]. right.
      exists u, h, []. split; [exact Hacc|]. split; [reflexivity|].
      split; [apply prefix_nil | auto]. }
    destruct (w (UrlFindOneByOriginalUrl u)).
    { eexists; eexists; eexists; split; [reflexivity|]. right.
      exists u, h. eexists. split; [exact Hacc|]. split; [reflexivity|].
      split; [eexists; reflexivity | intros E; congruence]. }
    destruct (List.find _ (urls db)).
    { eexists; eexists; eexists; split; [reflexivity|]. right.
      exists u, h. eexists. split; [exact Hacc|]. split; [reflexivity|].
      split; [eexists; reflexivity | intros E; congruence]. }
    destruct (w (CounterFindOneAndUpdate "url_count")).
    { eexists; eexists; eexists; split; [reflexivity|]. right.
      exists u, h. eexists. split; [exact Hacc|]. split; [reflexivity|].
      split; [eexists; reflexivity | intros E; congruence]. }
    destruct (w (UrlSave _) || existsb _ (urls db)).
    { eexists; eexists; eexists; split; [reflexivity|]. right.
      exists u, h. eexists. split; [exact Hacc|]. split; [reflexivity|].
      split; [exists []; reflexivity | intros E; congruence]. }
    eexists; eexists; eexists; split; [reflexivity|]. right.
    exists u, h. eexists. split; [exact Hacc|]. split; [reflexivity|].
    split; [exists []; reflexivity | intros E; congruence].
  - rewrite (create_not_accepted body w db Hno).
    eexists; eexists; eexists; split; [reflexivity|]. left. auto.
Qed.

(** X5: when the lookup of the URL fails, or finds nothing and the
    update of the counter then fails, create answers with status 500 and
    the body [{"error": "server error"}]; the database is left as it was
    (no id is used up) and nothing is saved. *)
Theorem create_storage_failure_before_save body u h w db :
  accepts body u h ->
  w (DnsLookup h) = false ->
  w (UrlFindOneByOriginalUrl u) = true
  \/ (w (UrlFindOneByOriginalUrl u) = false
      /\ List.find (fun x => String.eqb (original_url x) u) (urls db) = None
      /\ w (CounterFindOneAndUpdate "url_count") = true) ->
  exists t,
    create body w db
    = (Returned {| status := 500; payload := Json [("error", JStr "server error")] |},
       db, t)
    /\ forall doc, ~ In (UrlSave doc) t.
Proof.
  intros Hacc Hdns Hfail.
  rewrite (create_accepted body u h w db Hacc). cbv zeta. rewrite Hdns.
  destruct Hfail as [Hf|(Hf & Hnone & Hinc)]; rewrite Hf.
  - eexists. split; [reflexivity|].
    intros doc [E|[E|[]]]; discriminate E.
  - rewrite Hnone, Hinc. eexists. split; [reflexivity|].
    intros doc [E|[E|[E|[]]]]; discriminate E.
Qed.

(** X6: whatever the world answers, a response of create with status
    200 is either the invalid-url one or the mapping of a document that
    is in the collection when create returns, whose [original_url] is the
    text read from the body; every other response is the server-error
    one. *)
Theorem create_answers_what_is_stored body w db :
  exists res db' t,
    create body w db = (Returned res, db', t)
    /\ (res = invalid_url
        \/ res = server_error
        \/ exists d,
             res = mapping_json d
             /\ In d (urls db')
             /\ body_original_url body = Some (original_url d)).
Proof.
  destruct (accepts_dec body) as [(u & h & Hacc)|Hno].
  - rewrite (create_accepted body u h w db Hacc). cbv zeta.
    destruct Hacc as (Hb & _).
    destruct (w (DnsLookup h)); [eauto 7|].
    destruct (w (UrlFindOneByOriginalUrl u)); [eauto 7|].
    destruct (List.find _ (urls db)) as [e|] eqn:Hf.
    { destruct (find_original_url_Some u e _ Hf) as [Hin Hu].
      eexists; eexists; eexists; split; [reflexivity|]. right. right.
      exists e. rewrite Hu. auto. }
    destruct (w (CounterFindOneAndUpdate "url_count")); [eauto 7|].
    destruct (w (UrlSave _) || existsb _ (urls db)); [eauto 7|].
    eexists; eexists; eexists; split; [reflexivity|]. right. right.
    eexists. split; [reflexivity|]. split; [|exact Hb].
    simpl. apply in_or_app. right. left. reflexivity.
  - rewrite (create_not_accepted body w db Hno). eauto 7.
Qed.

(** X7: the checks ignore a leading space or control character, the
    lookup does not: when a URL is accepted, the same text with such a
    character in front is accepted too, with the same hostname, and,
    submitted after the first, gets a mapping of its own under another
    id. *)
Theorem create_dedup_is_by_exact_text body body' u h c w w' db :
  accepts body u h ->
  body_original_url body' = Some (String c u) ->
  URL.is_c0_or_space c = true ->
  (forall x, w x = false) -> (forall x, w' x = false) ->
  ids_ok db ->
  accepts body' (String c u) h
  /\ exists n n' db1 db2 t t',
       create body w db
       = (Returned (mapping_json {| original_url := u; short_url := n |}), db1, t)
       /\ create body' w' db1
          = (Returned (mapping_json {| original_url := String c u; short_url := n' |}),
             db2, t')
       /\ n' <> n.
Proof.
  intros Hacc Hb' Hc Hw Hw' Hok.
  assert (Hacc' : accepts body' (String c u) h).
  { destruct Hacc as (_ & _ & Hv & Hh & Hne).
    unfold accepts, isValidHttpUrl, getHostname in *.
    rewrite (parse_leading_space c u Hc). auto. }
  split; [exact Hacc'|].
  destruct (create_succeeds body u h w db Hacc (Hw _) (storage_up_calm _ Hw) Hok)
    as (d & db1 & t & Hc1 & Hu & Heff & _ & Hin & _).
  pose proof (effect_ids_ok db db1 Heff Hok) as Hok1.
  destruct (create_succeeds body' (String c u) h w' db1 Hacc' (Hw' _)
              (storage_up_calm _ Hw') Hok1)
    as (d' & db2 & t' & Hc2 & Hu' & Heff' & _ & Hin' & _).
  pose proof (effect_ids_ok db1 db2 Heff' Hok1) as (_ & Hnd & _).
  assert (Hin2 : In d (urls db2)).
  { destruct Heff'; auto. simpl. apply in_or_app. left. exact Hin. }
  exists (short_url d), (short_url d'), db1, db2, t, t'.
  split; [|split].
  - rewrite Hc1. destruct d; simpl in *; subst. reflexivity.
  - rewrite Hc2. destruct d'; simpl in *; subst. reflexivity.
  - intros E.
    pose proof (find_short_url_of (urls db2) d Hnd Hin2) as F.
    pose proof (find_short_url_of (urls db2) d' Hnd Hin') as F'.
    rewrite E in F'. rewrite F in F'. injection F' as <-.
    rewrite Hu in Hu'.
    apply (f_equal String.length) in Hu'. simpl in Hu'. lia.
Qed.

End CreateMore.

(** ** Resolve: what it reads and what it answers *)

Lemma find_short_url_eqv q q' (l : list UrlDoc) :
  q == q' ->
  List.find (fun d => Qeq_bool (inject_Z (short_url d)) q) l
  = List.find (fun d => Qeq_bool (inject_Z (short_url d)) q') l.
Proof.
  intros Hq. induction l as [|d l IH]; simpl; [reflexivity|].
  assert (E : Qeq_bool (inject_Z (short_url d)) q
              = Qeq_bool (inject_Z (short_url d)) q').
  { destruct (Qeq_bool (inject_Z (short_url d)) q) eqn:E1;
      destruct (Qeq_bool (inject_Z (short_url d)) q') eqn:E2;
      try reflexivity; exfalso.
    - apply Qeq_bool_iff in E1. apply Qeq_bool_neq in E2. apply E2.
      rewrite E1. exact Hq.
    - apply Qeq_bool_iff in E2. apply Qeq_bool_neq in E1. apply E1.
      rewrite E2. symmetry. exact Hq. }
  rewrite E, IH. reflexivity.
Qed.

Section ResolveMore.
Context `{Platform}.

(** X8: resolve never changes the database and always returns a
    response.  Either it makes no call and answers invalid-url, or it
    makes the one lookup for the number given and answers server-error,
    not-found, or a redirect to the [original_url] of a stored document. *)
Theorem resolve_reads_only p w db :
  exists res t,
    resolve p w db = (Returned res, db, t)
    /\ ((t = [] /\ res = invalid_url /\ JS.isFinite (JS.Number p) = false)
        \/ exists q,
             JS.Number p = JS.Finite q
             /\ t = [UrlFindOneByShortUrl q]
             /\ (res = server_error
                 \/ res = not_found
                 \/ exists e, In e (urls db)
                              /\ inject_Z (short_url e) == q
                              /\ res = res_redirect (original_url e))).
Proof.
  rewrite resolve_eq. destruct (JS.Number p) as [| |q] eqn:Hn.
  - eexists; eexists; split; [reflexivity|]. left. auto.
  - eexists; eexists; split; [reflexivity|]. left. auto.
  - cbv zeta. destruct (w _).
    { eexists; eexists; split; [reflexivity|]. right. exists q. auto. }
    destruct (List.find _ (urls db)) as [e|] eqn:Hf.
    + apply find_some in Hf as [Hin Hq]. apply Qeq_bool_iff in Hq.
      eexists; eexists; split; [reflexivity|]. right. exists q.
      split; [reflexivity|]. split; [reflexivity|]. right. right. exists e. auto.
    + eexists; eexists; split; [reflexivity|]. right. exists q. auto.
Qed.

(** X9: when the lookup of resolve fails, the answer is status 500 with
    the body [{"error": "server error"}]. *)
Theorem resolve_storage_failure p q w db :
  JS.Number p = JS.Finite q ->
  w (UrlFindOneByShortUrl q) = true ->
  resolve p w db
  = (Returned {| status := 500; payload := Json [("error", JStr "server error")] |},
     db, [UrlFindOneByShortUrl q]).
Proof.
  intros Hn Hw. rewrite resolve_eq, Hn. cbv zeta. rewrite Hw. reflexivity.
Qed.

(** X10: resolve finds a mapping by the value of the number, not by its
    text: with pairwise distinct ids, every text that [Number] converts to
    the id of a stored document (["1"], ["1.0"], ["0x1"], [" 1 "],
    ["1e0"], ...) is redirected with status 302; the [Location] is what
    [res.location] makes of the [original_url] of that document, which is
    the [original_url] itself when it is plain and not the alias
    ["back"]. *)
Theorem resolve_by_value p q e w db :
  JS.Number p = JS.Finite q ->
  inject_Z (short_url e) == q ->
  In e (urls db) ->
  NoDup (map short_url (urls db)) ->
  w (UrlFindOneByShortUrl q) = false ->
  resolve p w db
  = (Returned {| status := 302;
                 payload := Redirect (Express.location (original_url e)) |},
     db, [UrlFindOneByShortUrl q])
  /\ (original_url e <> "back" ->
      Express.plain (original_url e) = true ->
      Express.location (original_url e) = original_url e).
Proof.
  intros Hn Hq Hin Hnd Hw. split; [|apply location_plain].
  rewrite resolve_eq, Hn. cbv zeta. rewrite Hw.
  assert (Hf : List.find (fun d => Qeq_bool (inject_Z (short_url d)) q) (urls db)
               = Some e).
  { rewrite <- (find_short_url_of (urls db) e Hnd Hin).
    apply find_short_url_eqv. rewrite <- Hq. reflexivity. }
  rewrite Hf. reflexivity.
Qed.

End ResolveMore.

Lemma resolve_storage_failure_witness :
  @resolve simple_platform "1" lookup_fails db_one
  = (Returned server_error, db_one, [UrlFindOneByShortUrl (1 # 1)]).
Proof.
  apply (@resolve_storage_failure simple_platform "1" (1 # 1) lookup_fails db_one).
  - vm_compute. reflexivity.
  - reflexivity.
Defined.

Lemma resolve_by_value_witness :
  @resolve simple_platform "0x1" calm db_one
  = (Returned {| status := 302; payload := Redirect "http://example.com" |},
     db_one, [UrlFindOneByShortUrl (1 # 1)])
  /\ @resolve simple_platform " 1.0 " calm db_one
     = (Returned {| status := 302; payload := Redirect "http://example.com" |},
        db_one, [UrlFindOneByShortUrl (1 # 1)])
  /\ @resolve simple_platform "10e-1" calm db_one
     = (Returned {| status := 302; payload := Redirect "http://example.com" |},
        db_one, [UrlFindOneByShortUrl (1 # 1)]).
Proof.
  assert (Hin : In {| original_url := "http://example.com"; short_url := 1 |} (urls db_one))
    by (left; reflexivity).
  assert (Hnd : NoDup (map short_url (urls db_one)))
    by (simpl; constructor; [intros Hx; inversion Hx | constructor]).
  assert (Hby : forall p,
             JS.Number p = JS.Finite (1 # 1) ->
             @resolve simple_platform p calm db_one
             = (Returned {| status := 302; payload := Redirect "http://example.com" |},
                db_one, [UrlFindOneByShortUrl (1 # 1)])).
  { intros p Hp.
    destruct (@resolve_by_value simple_platform p (1 # 1)
                {| original_url := "http://example.com"; short_url := 1 |}
                calm db_one Hp (Qeq_refl _) Hin Hnd eq_refl) as [Hr Hloc].
    rewrite Hr. cbn [original_url] in *.
    rewrite (Hloc ltac:(discriminate) eq_refl). reflexivity. }
  split; [|split]; apply Hby; vm_compute; reflexivity.
Defined.

Lemma create_call_order_witness :
  exists res t,
    @create simple_platform (body_url "http://example.com") offline db_one
    = (Returned res, db_one, t)
    /\ t = [DnsLookup "example.com"]
    /\ res = invalid_url.
Proof.
  destruct (@create_call_order simple_platform (body_url "http://example.com")
              offline db_one)
    as (res & db' & t & Hc & [(_ & _ & _ & Hno)|(u & h & t' & Hacc & Ht & _ & Hdns)]).
  - destruct (Hno _ _ accepts_example).
  - destruct (@accepts_fun simple_platform _ _ _ _ _ Hacc accepts_example) as [_ Eh].
    rewrite <- Eh in Hdns. destruct (Hdns eq_refl) as (Et & Edb & Eres).
    exists res, t. rewrite <- Edb at 2. split; [exact Hc|].
    split; [rewrite Ht, Et, <- Eh; reflexivity | exact Eres].
Defined.

Lemma create_storage_failure_before_save_witness :
  (exists t,
      @create simple_platform (body_url "https://www.freecodecamp.org/learn")
        lookup_fails db_one
      = (Returned server_error, db_one, t)
      /\ forall doc, ~ In (UrlSave doc) t)
  /\ (exists t,
         @create simple_platform (body_url "https://www.freecodecamp.org/learn")
           counter_fails db_one
         = (Returned server_error, db_one, t)
         /\ forall doc, ~ In (UrlSave doc) t).
Proof.
  split.
  - apply (@create_storage_failure_before_save simple_platform _
             "https://www.freecodecamp.org/learn" "www.freecodecamp.org"
             lookup_fails db_one accepts_example2 eq_refl).
    left. reflexivity.
  - apply (@create_storage_failure_before_save simple_platform _
             "https://www.freecodecamp.org/learn" "www.freecodecamp.org"
             counter_fails db_one accepts_example2 eq_refl).
    right. split; [reflexivity|]. split; reflexivity.
Defined.

Lemma create_dedup_is_by_exact_text_witness :
  exists n n' db1 db2 t t',
    @create simple_platform (body_url "http://example.com") calm empty_db
    = (Returned (mapping_json {| original_url := "http://example.com"; short_url := n |}),
       db1, t)
    /\ @create simple_platform (body_url " http://example.com") calm db1
       = (Returned (mapping_json {| original_url := " http://example.com";
                                    short_url := n' |}),
          db2, t')
    /\ n' <> n.
Proof.
  apply (@create_dedup_is_by_exact_text simple_platform
           (body_url "http://example.com") (body_url " http://example.com")
           "http://example.com" "example.com" " "%char calm calm empty_db).
  - exact accepts_example.
  - vm_compute. reflexivity.
  - reflexivity.
  - reflexivity.
  - reflexivity.
  - exact ids_ok_empty_db.
Defined.

(** ** Serving any requests: what stays true of the database *)

Lemma StronglySorted_snoc (l : list Z) x :
  StronglySorted Z.lt l -> Forall (fun y => y < x) l -> StronglySorted Z.lt (l ++ [x]).
Proof.
  induction 1 as [|a l Hs IH Ha]; intros Hlt; simpl.
  - repeat constructor.
  - apply Forall_cons_iff in Hlt as [Hax Hlt].
    constructor; [apply IH, Hlt|].
    rewrite Forall_app. split; [exact Ha | repeat constructor; exact Hax].
Qed.

Section Serving.
Context `{Platform}.

(** X11: serving requests, in whatever worlds, keeps the ids of the
    stored documents pairwise distinct and between 1 and the counter, and
    keeps the stored [original_url]s pairwise distinct. *)
Theorem serve_keeps_ids_and_urls_distinct rs db :
  ids_ok db -> urls_distinct db ->
  ids_ok (serve rs db).2 /\ urls_distinct (serve rs db).2.
Proof.
  intros Hok Hd.
  apply (serve_invariant (fun db' => ids_ok db' /\ urls_distinct db')); [|auto].
  intros db1 db2 He [Hok1 Hd1]. split.
  - apply (effect_ids_ok db1); assumption.
  - apply (effect_urls_distinct db1); assumption.
Qed.

(** X12: serving requests never removes or changes a stored document
    and never lowers the counter: the collection afterwards is the one
    before followed by the new documents, and there are at most as many
    new documents as the counter has advanced. *)
Theorem serve_only_appends rs db :
  exists new,
    urls (serve rs db).2 = urls db ++ new
    /\ Z.of_nat (length new) <= url_count (serve rs db).2 - url_count db.
Proof.
  apply (serve_invariant
           (fun db' => exists new,
                urls db' = urls db ++ new
                /\ Z.of_nat (length new) <= url_count db' - url_count db)).
  - intros db1 db2 He (new & Hu & Hn). destruct He as [| |u _ _].
    + exists new. auto.
    + exists new. rewrite url_count_bumped. simpl. split; [exact Hu | lia].
    + exists (new ++ [{| original_url := u; short_url := url_count db1 + 1 |}]).
      rewrite url_count_added. simpl. rewrite Hu, <- app_assoc, length_app. simpl.
      split; [reflexivity | lia].
  - exists []. rewrite app_nil_r. simpl. split; [reflexivity | lia].
Qed.

(** X13: the documents are stored in the order of their ids: when the
    ids of a database of the service increase along the collection, they
    still do after any requests. *)
Theorem serve_keeps_ids_increasing rs db :
  ids_ok db -> ids_increasing db -> ids_increasing (serve rs db).2.
Proof.
  intros Hok Hinc.
  apply (serve_invariant (fun db' => ids_ok db' /\ ids_increasing db')); [|auto].
  intros db1 db2 He [Hok1 Hinc1]. split; [apply (effect_ids_ok db1); assumption|].
  destruct He as [| |u _ _]; auto.
  unfold ids_increasing. simpl. rewrite map_app. simpl.
  apply StronglySorted_snoc; [exact Hinc1|].
  destruct Hok1 as (_ & _ & Hb).
  apply Forall_map. eapply List.Forall_impl; [|exact Hb].
  intros d Hd. simpl in *. lia.
Qed.

Lemma create_keeps_valid_urls body w db :
  valid_urls db -> valid_urls (create body w db).1.2.
Proof.
  intros Hv. destruct (accepts_dec body) as [(u & h & Hacc)|Hno].
  - rewrite (create_accepted body u h w db Hacc). cbv zeta.
    destruct (w (DnsLookup h)); [exact Hv|].
    destruct (w (UrlFindOneByOriginalUrl u)); [exact Hv|].
    destruct (List.find _ (urls db)); [exact Hv|].
    destruct (w (CounterFindOneAndUpdate "url_count")); [exact Hv|].
    destruct (w (UrlSave _) || existsb _ (urls db)); [exact Hv|].
    unfold valid_urls. simpl. rewrite Forall_app. split; [exact Hv|].
    constructor; [|constructor]. simpl.
    destruct Hacc as (_ & Hu & Hvalid & Hh & Hne).
    unfold validated. eauto.
  - rewrite (create_not_accepted body w db Hno). exact Hv.
Qed.

(** X14: every stored [original_url] went through the checks of create:
    from a database where that holds (the empty one, for a start), after
    any requests every stored [original_url] is non-empty, is accepted by
    [isValidHttpUrl] and has a non-empty hostname; and the [Location] of
    a response of resolve with status 302 is [encodeUrl] of such a stored
    URL. *)
Theorem serve_stores_only_validated rs db :
  valid_urls db ->
  valid_urls (serve rs db).2
  /\ forall p w res db' t,
       resolve p w (serve rs db).2 = (Returned res, db', t) ->
       status res = 302 ->
       exists e,
         In e (urls (serve rs db).2)
         /\ validated (original_url e)
         /\ payload res = Redirect (Express.encodeUrl (original_url e)).
Proof.
  intros Hv.
  assert (Hall : valid_urls (serve rs db).2).
  { revert db Hv. induction rs as [|[r w] rs IH]; intros db Hv; [exact Hv|].
    simpl. destruct (handle r w db) as [[o db1] t] eqn:Eh.
    assert (Hv1 : valid_urls db1).
    { destruct r as [body|p]; simpl in Eh.
      - pose proof (create_keeps_valid_urls body w db Hv) as Hk.
        rewrite Eh in Hk. exact Hk.
      - destruct (resolve_effect p w db) as (res & t0 & E).
        rewrite E in Eh. injection Eh as _ <- _. exact Hv. }
    specialize (IH db1 Hv1). destruct (serve rs db1) as [os db2]. exact IH. }
  split; [exact Hall|].
  intros p w res db' t Hr Hs.
  destruct (resolve_reads_only p w (serve rs db).2) as (res0 & t0 & E & Hshape).
  rewrite Hr in E. injection E as <- _.
  destruct Hshape as [(_ & -> & _)|(q & _ & _ & [->|[->|(e & Hin & _ & ->)]])];
    try discriminate Hs.
  exists e. split; [exact Hin|].
  unfold valid_urls in Hall. rewrite List.Forall_forall in Hall.
  pose proof (Hall e Hin) as Hval. split; [exact Hval|].
  destruct Hval as (_ & Hvalid & _).
  unfold res_redirect. cbn [payload]. rewrite (location_valid _ Hvalid). reflexivity.
Qed.

End Serving.

Lemma serve_keeps_ids_and_urls_distinct_witness :
  ids_ok
    (@serve simple_platform
       [(Create (body_url "http://example.com"), calm);
        (Create (body_url "http://example.com"), calm);
        (Resolve "abc", lookup_fails)]
       db_one).2
  /\ urls_distinct
       (@serve simple_platform
          [(Create (body_url "http://example.com"), calm);
           (Create (body_url "http://example.com"), calm);
           (Resolve "abc", lookup_fails)]
          db_one).2.
Proof.
  apply (@serve_keeps_ids_and_urls_distinct simple_platform).
  - exact ids_ok_db_one.
  - constructor; [intros Hin; inversion Hin | constructor].
Defined.

Lemma serve_keeps_ids_increasing_witness :
  ids_increasing
    (@serve simple_platform
       [(Create (body_url "http://example.com"), calm);
        (Create (body_url "https://www.freecodecamp.org/learn"), save_fails);
        (Resolve "1", calm);
        (Create (body_url "https://www.freecodecamp.org/learn"), calm)]
       empty_db).2.
Proof.
  apply (@serve_keeps_ids_increasing simple_platform).
  - exact ids_ok_empty_db.
  - constructor.
Defined.

Lemma serve_stores_only_validated_witness :
  exists e,
    In e (urls (@serve simple_platform [(Create (body_url "http://example.com"), calm)]
                  empty_db).2)
    /\ @validated simple_platform (original_url e)
    /\ payload (@res_redirect simple_platform "http://example.com")
       = Redirect (@Express.encodeUrl simple_platform (original_url e)).
Proof.
  destruct (@serve_stores_only_validated simple_platform
              [(Create (body_url "http://example.com"), calm)] empty_db)
    as [_ Hred].
  - constructor.
  - apply (Hred "1" calm (@res_redirect simple_platform "http://example.com")
             (@serve simple_platform [(Create (body_url "http://example.com"), calm)]
                empty_db).2
             [UrlFindOneByShortUrl (1 # 1)]).
    + vm_compute. reflexivity.
    + reflexivity.
Defined.
